(** * market-lab: the backtest simulation core

    A shallow embedding of
      - src/engine/evaluation/baseline_portfolio.py
        (periodic equal-weight rebalancing), and
      - src/engine/evaluation/buyhold_portfolio.py
        (single-entry buy-and-hold),
    together with the panel loader they share.

    Number model.  The Python code computes with binary floating point.
    The first part of this file reads every float as an exact rational
    ([Qc], canonical fractions with Leibniz equality).  Its theorems are
    kept to what rounding does not touch: the structure of a run (which
    iterations happen, in which order, with which rows), signs and
    orders, and equations that repeat a single operation of the code.
    The runs with [fixed_only_costs] use dyadic values only, for which
    binary64 arithmetic is exact as well.  Whatever rounding decides is
    settled in [Module Binary64], which transcribes the same code over
    the kernel's primitive binary64 floats.

    Failure model.  A division whose divisor is zero has no rational
    value: Python raises ZeroDivisionError on floats and numpy yields
    inf/nan.  Both are the outcome [Err ZeroDivisionError] in the exact
    part; [Binary64] tells the two apart. *)

From Stdlib Require Import QArith Qcanon Qcabs Lqa Sorted Permutation.
From Stdlib Require Import Uint63 Floats.
From stdpp Require Import gmap strings list fin_maps numbers sorting.

Local Open Scope Qc_scope.

(** ** Outcomes of fallible code *)

Inductive error :=
  ZeroDivisionError | ValueError | IndexError | TypeError | KeyError.

Inductive result (A : Type) : Type :=
| Ok (a : A)
| Err (e : error).
Arguments Ok {A} a.
Arguments Err {A} e.

Global Instance result_ret : MRet result := λ A a, Ok a.
Global Instance result_bind : MBind result := λ A B f r,
  match r with Ok a => f a | Err e => Err e end.

Definition is_Ok {A} (r : result A) : Prop := ∃ a, r = Ok a.

(** ** Floats as rationals *)

Global Instance Qc_inhabited : Inhabited Qc := populate 0.

Definition qz (z : Z) : Qc := Q2Qc (inject_Z z).

(** Python's [min(a, b)], [max(a, b)] and [abs(x)] on numbers. *)
Definition fmin (a b : Qc) : Qc := if decide (b < a) then b else a.
Definition fmax (a b : Qc) : Qc := if decide (a < b) then b else a.
Definition fabs (x : Qc) : Qc := if decide (x < 0) then - x else x.

(** [a / b] on floats. *)
Definition fdiv (a b : Qc) : result Qc :=
  if decide (b = 0) then Err ZeroDivisionError else Ok (a / b).

(** Python's [sum(...)]: a left fold that starts from 0. *)
Definition fsum (l : list Qc) : Qc := foldl Qcplus 0 l.

(** ** Dates *)

Record date := mkDate { year : Z; month : Z; day : Z }.

Global Instance date_eq_dec : EqDecision date.
Proof. solve_decision. Defined.

Definition date_lt (d1 d2 : date) : Prop :=
  (year d1 < year d2 ∨
   (year d1 = year d2 ∧
    (month d1 < month d2 ∨ (month d1 = month d2 ∧ day d1 < day d2))))%Z.

Definition date_le (d1 d2 : date) : Prop := date_lt d1 d2 ∨ d1 = d2.

Global Instance date_lt_dec : RelDecision date_lt.
Proof. intros d1 d2. unfold date_lt. apply _. Defined.

Global Instance date_le_dec : RelDecision date_le.
Proof. intros d1 d2. unfold date_le. apply _. Defined.

(** ** Data model *)

Inductive side := SELL | BUY.

Global Instance side_eq_dec : EqDecision side.
Proof. solve_decision. Defined.

(** [class Costs] *)
Record Costs := mkCosts {
  fee_bps : Qc;
  slippage_bps : Qc;
  fixed_per_trade : Qc
}.

(** One row of [trade_rows]. *)
Record trade := mkTrade {
  t_date : date;
  t_asset : string;
  t_side : side;
  t_qty : Qc;
  t_price : Qc;
  t_notional : Qc;
  t_fee_var : Qc;
  t_fee_fixed : Qc;
  t_fee_total : Qc
}.

(** One row of [equity_rows]; [e_qty] and [e_val] hold the [qty_<a>] and
    [val_<a>] cells in column order. *)
Record equity_row := mkEquity {
  e_date : date;
  e_equity : Qc;
  e_cash : Qc;
  e_qty : list (string * Qc);
  e_val : list (string * Qc)
}.

(** The mutable locals [cash] and [qty] of a simulation.  [qty] is
    created with one key per asset and only ever indexed by assets, so a
    lookup never misses; [!!!] reads it. *)
Record portfolio := mkPortfolio {
  cash : Qc;
  qty : gmap string Qc
}.

(** A validated close panel: the asset columns and, per date, the row of
    prices. *)
Record DataFrame := mkFrame {
  columns : list string;
  rows : list (date * gmap string Qc)
}.

Definition index (close : DataFrame) : list date := (rows close).*1.

(** [bps_to_rate] *)
Definition bps_to_rate (bps : Qc) : Qc := bps / qz 10000.

(** ** Loops over fallible steps *)

(** [run_steps f l s] runs the body [f] once per element of [l], in
    order, threading the state and collecting what each iteration
    emits.  An exception in one iteration aborts the whole loop. *)
Fixpoint run_steps {A S O} (f : A → S → result (S * O)) (l : list A) (s : S)
  : result (S * list O) :=
  match l with
  | [] => Ok (s, [])
  | a :: l' =>
      '(s1, o) ← f a s;
      '(s2, os) ← run_steps f l' s1;
      Ok (s2, o :: os)
  end.

(** The rows that a loop appended to [trade_rows]: an iteration that hits
    [continue] appends none. *)
Definition appended (emitted : list (option trade)) : list trade :=
  omap id emitted.

(** A dict comprehension [{a: f(a) for a in keys}]. *)
Definition dict_of (f : string → Qc) (keys : list string) : gmap string Qc :=
  list_to_map ((λ a, (a, f a)) <$> keys).

(** ** The execution model *)

Section Execution.
Variable costs : Costs.
Variable dt : date.

Let fee_rate := bps_to_rate (fee_bps costs).
Let slip_rate := bps_to_rate (slippage_bps costs).

(** baseline_portfolio.py, lines 79-104: the body of
    [if side == "SELL" and dv < 0]. *)
Definition sell_branch (a : string) (dv price : Qc) (p : portfolio)
  : result (portfolio * option trade) :=
  let notional := fabs dv in
  if decide (notional ≤ 0) then Ok (p, None) else
  let exec_price := price * (1 - slip_rate) in
  dq ← fdiv notional exec_price;
  let dq := fmin dq (qty p !!! a) in
  let notional_exec := dq * exec_price in
  let var_cost := notional_exec * fee_rate in
  let fix_cost := fixed_per_trade costs in
  let total_cost := var_cost + fix_cost in
  Ok (mkPortfolio (cash p + (notional_exec - total_cost))
                  (<[a := qty p !!! a - dq]> (qty p)),
      Some (mkTrade dt a SELL dq exec_price notional_exec
                    var_cost fix_cost total_cost)).

(** baseline_portfolio.py, lines 110-135, and buyhold_portfolio.py,
    lines 78-103: sizing a purchase of [notional] against the cash at
    hand. *)
Definition buy_branch (a : string) (notional price : Qc) (p : portfolio)
  : result (portfolio * option trade) :=
  let exec_price := price * (1 + slip_rate) in
  afford ← fdiv (cash p - fixed_per_trade costs) (1 + fee_rate);
  let max_notional_exec := fmax 0 afford in
  let notional_exec := fmin notional max_notional_exec in
  if decide (notional_exec ≤ 0) then Ok (p, None) else
  dq ← fdiv notional_exec exec_price;
  let var_cost := notional_exec * fee_rate in
  let fix_cost := fixed_per_trade costs in
  let total_cost := var_cost + fix_cost in
  Ok (mkPortfolio (cash p - (notional_exec + total_cost))
                  (<[a := qty p !!! a + dq]> (qty p)),
      Some (mkTrade dt a BUY dq exec_price notional_exec
                    var_cost fix_cost total_cost)).

(** One iteration of [for side in ("SELL", "BUY"): for a in assets]. *)
Definition execute (prices delta_val : gmap string Qc)
    (w : side * string) (p : portfolio) : result (portfolio * option trade) :=
  let '(sd, a) := w in
  let dv := delta_val !!! a in
  match sd with
  | SELL => if decide (dv < 0) then sell_branch a dv (prices !!! a) p
            else Ok (p, None)
  | BUY => if decide (0 < dv) then
             if decide (dv ≤ 0) then Ok (p, None)
             else buy_branch a dv (prices !!! a) p
           else Ok (p, None)
  end.
End Execution.

(** ** Periodic equal-weight rebalancing (baseline_portfolio.py) *)

(** [first_trading_day_each_month]: the first row of every (year, month)
    group, in index order. *)
Fixpoint first_days (seen : list (Z * Z)) (idx : list date) : list date :=
  match idx with
  | [] => []
  | d :: rest =>
      if decide ((year d, month d) ∈ seen) then first_days seen rest
      else d :: first_days ((year d, month d) :: seen) rest
  end.

Definition first_trading_day_each_month (idx : list date) : list date :=
  first_days [] idx.

(** The closure [portfolio_value]. *)
Definition portfolio_value (assets : list string) (prices : gmap string Qc)
    (p : portfolio) : Qc :=
  cash p + fsum ((λ a, qty p !!! a * prices !!! a) <$> assets).

(** The order in which one rebalance visits (side, asset). *)
Definition worklist (assets : list string) : list (side * string) :=
  ((λ a, (SELL, a)) <$> assets) ++ ((λ a, (BUY, a)) <$> assets).

(** [delta_val] of a rebalance day (lines 69-72).  [1.0 / n] is only
    evaluated for a key of the comprehension, hence with [n >= 1]. *)
Definition delta_val (assets : list string) (prices : gmap string Qc)
    (p : portfolio) : gmap string Qc :=
  let n := length assets in
  let target_w := dict_of (λ _, 1 / qz (Z.of_nat n)) assets in
  let pv := portfolio_value assets prices p in
  let target_val := dict_of (λ a, pv * target_w !!! a) assets in
  let current_val := dict_of (λ a, qty p !!! a * prices !!! a) assets in
  dict_of (λ a, target_val !!! a - current_val !!! a) assets.

Definition rebalance (costs : Costs) (assets : list string) (dt : date)
    (prices : gmap string Qc) (p : portfolio)
  : result (portfolio * list (option trade)) :=
  run_steps (execute costs dt prices (delta_val assets prices p))
            (worklist assets) p.

Definition snapshot (assets : list string) (dt : date)
    (prices : gmap string Qc) (p : portfolio) : equity_row :=
  mkEquity dt (portfolio_value assets prices p) (cash p)
           ((λ a, (a, qty p !!! a)) <$> assets)
           ((λ a, (a, qty p !!! a * prices !!! a)) <$> assets).

(** The body of [for dt, prices in close.iterrows()]. *)
Definition simulate_day (costs : Costs) (assets : list string)
    (rebalance_days : list date) (row : date * gmap string Qc) (p : portfolio)
  : result (portfolio * (list trade * equity_row)) :=
  let dt := row.1 in
  let prices := row.2 in
  let traded : result (portfolio * list (option trade)) :=
    if decide (dt ∈ rebalance_days) then rebalance costs assets dt prices p
    else Ok (p, []) in
  '(p', emitted) ← traded;
  Ok (p', (appended emitted, snapshot assets dt prices p')).

Definition initial_portfolio (assets : list string) (initial_cash : Qc)
  : portfolio :=
  mkPortfolio initial_cash (dict_of (λ _, 0) assets).

(** Returns [(equity, trades)]. *)
Definition simulate_equal_weight_monthly_rebalance (close : DataFrame)
    (initial_cash : Qc) (costs : Costs)
  : result (list equity_row * list trade) :=
  let assets := columns close in
  let rebalance_days := first_trading_day_each_month (index close) in
  '(_, out) ← run_steps (simulate_day costs assets rebalance_days)
                         (rows close) (initial_portfolio assets initial_cash);
  Ok (out.*2, concat out.*1).

(** ** Single-entry buy-and-hold (buyhold_portfolio.py) *)

(** The body of [for a in assets] on the first date.  [first_prices] is
    [close.loc[first_dt]]: one row when the first date is unique in the
    index, and a frame otherwise, on which [float(first_prices[a])]
    raises. *)
Definition buyhold_entry (costs : Costs) (first_dt : date)
    (first_prices : result (gmap string Qc)) (initial_cash w : Qc)
    (a : string) (p : portfolio) : result (portfolio * option trade) :=
  let target_notional := initial_cash * w in
  prices ← first_prices;
  buy_branch costs first_dt a target_notional (prices !!! a) p.

Definition loc (close : DataFrame) (d : date) : result (gmap string Qc) :=
  match filter (λ r, r.1 = d) (rows close) with
  | r :: nil => Ok r.2
  | _ => Err TypeError
  end.

(** Returns [(equity, trades)]. *)
Definition simulate_buyhold_equal_weight (close : DataFrame)
    (initial_cash : Qc) (costs : Costs)
  : result (list equity_row * list trade) :=
  let assets := columns close in
  let n := length assets in
  w ← fdiv 1 (qz (Z.of_nat n));
  first_dt ← match index close with
             | [] => Err IndexError
             | d :: _ => Ok d
             end;
  let first_prices := loc close first_dt in
  '(p, emitted) ← run_steps
                     (buyhold_entry costs first_dt first_prices initial_cash w)
                     assets (initial_portfolio assets initial_cash);
  Ok ((λ r, snapshot assets r.1 r.2 p) <$> rows close, appended emitted).

(** ** The panel loader ([load_panel_close], the same in both files) *)

(** A cell of the file as [read_csv] delivers it. *)
Inductive cell := Num (q : Qc) | Text (s : string) | Missing.

(** The frame after [pd.read_csv(path, parse_dates=["Date"])]: the
    non-date column labels and, per line of the file, its date and its
    cells by label. *)
Record csv := mkCsv {
  csv_columns : list string;
  csv_rows : list (date * gmap string cell)
}.

(** [pd.to_numeric(..., errors="coerce")] on one cell; [None] is NaN. *)
Definition to_numeric (c : cell) : option Qc :=
  match c with
  | Num q => Some q
  | Text _ | Missing => None
  end.

(** [df.sort_values("Date")]: ascending by date.  Every row is kept.
    pandas does not promise an order among rows of equal date; this
    model keeps their file order, and the theorems below only read the
    dates. *)
Fixpoint insert_by_date {A} (r : date * A) (l : list (date * A))
  : list (date * A) :=
  match l with
  | [] => [r]
  | x :: l' =>
      if decide (date_lt x.1 r.1) then x :: insert_by_date r l'
      else r :: x :: l'
  end.

Definition sort_values {A} (l : list (date * A)) : list (date * A) :=
  foldr insert_by_date [] l.

(** One row after the coercion loop; [None] when [isna()] finds a cell. *)
Definition coerce_row (cols : list string) (r : gmap string cell)
  : option (gmap string Qc) :=
  list_to_map <$>
    mapM (λ c, q ← (r !! c ≫= to_numeric); Some (c, q)) cols.

Definition load_panel_close (f : csv) : result DataFrame :=
  let df := sort_values (csv_rows f) in
  match mapM (λ r, m ← coerce_row (csv_columns f) r.2; Some (r.1, m)) df with
  | Some rs => Ok (mkFrame (csv_columns f) rs)
  | None => Err ValueError
  end.

(** ** Derived notions used in the statements *)

(** The notional a BUY of [notional] is sized to, from cash [c]:
    [min(notional, max(0.0, (c - fixed_per_trade) / (1.0 + fee_rate)))]. *)
Definition sized (costs : Costs) (notional c : Qc) : Qc :=
  fmin notional
       (fmax 0 ((c - fixed_per_trade costs) / (1 + bps_to_rate (fee_bps costs)))).

(** ** Concrete inputs *)

Definition example_costs : Costs := mkCosts (qz 5) (qz 2) 0.

(** Two assets over the first trading days of three months. *)
Definition two_assets (y m d : Z) (a b : Q) : date * gmap string Qc :=
  (mkDate y m d, <["A" := Q2Qc a]> (<["B" := Q2Qc b]> ∅)).

Definition falling_panel : DataFrame :=
  mkFrame ["A"; "B"]
          [two_assets 2020 1 2 1 1;
           two_assets 2020 2 3 (1 # 2) 1;
           two_assets 2020 3 2 (1 # 4) 1].

(** No fee, no slippage, a fixed charge of 16 per order. *)
Definition fixed_only_costs : Costs := mkCosts 0 0 (qz 16).

(** A one-column file whose lines are out of order and repeat a date. *)
Definition line_A (y m d : Z) (c : cell) : date * gmap string cell :=
  (mkDate y m d, {["A" := c]}).

Definition repeated_dates_csv : csv :=
  mkCsv ["A"]
        [line_A 2020 1 3 (Num (qz 2));
         line_A 2020 1 2 (Num (qz 1));
         line_A 2020 1 2 (Num (qz 3))].

(** [falling_panel] as a file. *)
Definition line_AB (y m d : Z) (a b : Q) : date * gmap string cell :=
  (mkDate y m d, <["A" := Num (Q2Qc a)]> (<["B" := Num (Q2Qc b)]> ∅)).

Definition falling_csv : csv :=
  mkCsv ["A"; "B"]
        [line_AB 2020 1 2 1 1;
         line_AB 2020 2 3 (1 # 2) 1;
         line_AB 2020 3 2 (1 # 4) 1].

(** The first date of [falling_panel]. *)
Definition first_date : date := mkDate 2020 1 2.
Definition first_prices : gmap string Qc := (two_assets 2020 1 2 1 1).2.

(** The holding of an asset at the end of a rebalance. *)
Definition final_holding (r : result (portfolio * list (option trade)))
    (a : string) : Q :=
  match r with Ok (p, _) => this (qty p !!! a) | Err _ => 0%Q end.

(** Reading the tables of a run. *)
Definition ledger (r : result (list equity_row * list trade)) : list trade :=
  match r with Ok (_, trades) => trades | Err _ => [] end.

Definition equity_curve (r : result (list equity_row * list trade))
  : list equity_row :=
  match r with Ok (equity, _) => equity | Err _ => [] end.

(** ** The trace of a run

    The simulators return tables only.  To speak about the portfolio
    "after every trade", the iterations a loop performs are listed with
    the state they start from and the state they leave.  The lemmas
    [run_steps_emitted] and [simulation_ledger] tie the lists to what
    the loops return. *)

(** The iterations of [run_steps f l s], up to the first that fails:
    element, state before, state after, what was emitted. *)
Fixpoint steps_of {A S O} (f : A → S → result (S * O)) (l : list A) (s : S)
  : list (A * S * S * O) :=
  match l with
  | [] => []
  | a :: l' =>
      match f a s with
      | Ok (s1, o) => (a, s, s1, o) :: steps_of f l' s1
      | Err _ => []
      end
  end.

(** One iteration of the inner loop of a rebalance: the side and asset
    visited, the desired delta value of that asset, the portfolio before
    and after, and the ledger row appended, if any. *)
Record event := mkEvent {
  ev_date : date;
  ev_side : side;
  ev_asset : string;
  ev_delta : Qc;
  ev_before : portfolio;
  ev_after : portfolio;
  ev_trade : option trade
}.

Definition rebalance_events (costs : Costs) (assets : list string) (dt : date)
    (prices : gmap string Qc) (p : portfolio) : list event :=
  let dv := delta_val assets prices p in
  (λ x : side * string * portfolio * portfolio * option trade,
     mkEvent dt x.1.1.1.1 x.1.1.1.2 (dv !!! x.1.1.1.2) x.1.1.2 x.1.2 x.2)
  <$> steps_of (execute costs dt prices dv) (worklist assets) p.

Fixpoint run_events (costs : Costs) (assets : list string)
    (rebalance_days : list date) (rws : list (date * gmap string Qc))
    (p : portfolio) : list event :=
  match rws with
  | [] => []
  | row :: rest =>
      (if decide (row.1 ∈ rebalance_days)
       then rebalance_events costs assets row.1 row.2 p else [])
      ++ match simulate_day costs assets rebalance_days row p with
         | Ok (p', _) => run_events costs assets rebalance_days rest p'
         | Err _ => []
         end
  end.

Definition simulation_events (close : DataFrame) (initial_cash : Qc)
    (costs : Costs) : list event :=
  run_events costs (columns close)
             (first_trading_day_each_month (index close))
             (rows close) (initial_portfolio (columns close) initial_cash).

(** The PricePanel invariant "all prices strictly positive". *)
Definition positive_prices (close : DataFrame) : Prop :=
  Forall (λ row : date * gmap string Qc,
            Forall (λ a, 0 < row.2 !!! a) (columns close))
         (rows close).

Global Instance positive_prices_dec close : Decision (positive_prices close).
Proof. unfold positive_prices. apply _. Defined.


(** The PricePanel invariant "dates strictly increasing". *)
Definition strictly_increasing (idx : list date) : Prop :=
  StronglySorted date_lt idx.

Global Instance strictly_increasing_dec idx : Decision (strictly_increasing idx).
Proof. unfold strictly_increasing. apply _. Defined.


(** ** Order of the assets within a pass *)

(** The iterations of one pass of [for side in ("SELL", "BUY")]. *)
Definition pass (sd : side) (order : list string) : list (side * string) :=
  (λ a, (sd, a)) <$> order.

(** Two runs of a loop agree: both fail, or both return the same cash
    and holdings and have appended the same rows, in some order. *)
Definition same_outcome (r1 r2 : result (portfolio * list (option trade)))
  : Prop :=
  match r1, r2 with
  | Ok (p1, os1), Ok (p2, os2) => p1 = p2 ∧ appended os1 ≡ₚ appended os2
  | Err _, Err _ => True
  | _, _ => False
  end.

(** ** The turns of the buy-and-hold entry *)


(** ** Notions used for the further properties *)

(** The (year, month) group of a date. *)
Definition month_key (d : date) : Z * Z := (year d, month d).

(** What a ledger row says happened to a portfolio: a SELL credits the
    notional less the fees and takes the quantity out of the holding of
    its asset, a BUY debits the notional plus the fees and adds the
    quantity. *)
Definition apply_trade (p : portfolio) (t : trade) : portfolio :=
  match t_side t with
  | SELL =>
      mkPortfolio (cash p + (t_notional t - t_fee_total t))
                  (<[t_asset t := qty p !!! t_asset t - t_qty t]> (qty p))
  | BUY =>
      mkPortfolio (cash p - (t_notional t + t_fee_total t))
                  (<[t_asset t := qty p !!! t_asset t + t_qty t]> (qty p))
  end.

(** Replaying a ledger, oldest row first. *)
Definition replay (p : portfolio) (trades : list trade) : portfolio :=
  foldl apply_trade p trades.



(** ** The drawdown statistic ([summarize_equity], the same in both files)

    [dd = (eq / eq.cummax() - 1.0).min()], which is reported times 100
    as [MaxDrawdown_pct].  The other statistics of [summarize_equity]
    need powers and square roots of floats and are not modelled. *)

(** [eq.cummax()]: the running maximum of the series. *)
Fixpoint cummax_from (m : Qc) (l : list Qc) : list Qc :=
  match l with
  | [] => []
  | x :: l' => fmax m x :: cummax_from (fmax m x) l'
  end.

Definition cummax (l : list Qc) : list Qc :=
  match l with
  | [] => []
  | x :: l' => x :: cummax_from x l'
  end.

(** One element of [eq / eq.cummax() - 1.0].  The division is that of
    numpy: a zero denominator raises nothing and gives an infinity or
    NaN; these are outside the numbers modelled here and read [None]. *)
Definition drawdown (x m : Qc) : option Qc :=
  if decide (m = 0) then None else Some (x / m - 1).

(** [.min()] of a series; NaN ([None]) on the empty series. *)
Definition series_min (l : list Qc) : option Qc :=
  match l with
  | [] => None
  | x :: l' => Some (foldl fmin x l')
  end.

Definition max_drawdown (eq : list Qc) : option Qc :=
  mapM (λ xm : Qc * Qc, drawdown xm.1 xm.2) (zip eq (cummax eq))
  ≫= series_min.

(** * The same code in binary64

    The definitions above compute with exact rationals.  Whatever the
    code decides by rounding (whether a debit fits the cash, whether a
    product gives back the number it was divided from) has to be read
    off the arithmetic the interpreter performs.  This module transcribes
    the two simulators, the loader and [main] once more, over the
    kernel's primitive binary64 floats: [+], [-], [*] and [/] round to
    nearest, ties to even, as Python's [float] and [numpy.float64] do.

    Division by zero.  Between two Python floats it raises
    [ZeroDivisionError].  When an operand is a [numpy.float64] the
    quotient is the IEEE one (an infinity or NaN, with a warning) and
    the run goes on.  A cell read from a pandas row is a
    [numpy.float64], and so is every number computed from one. *)
Module Binary64.
Local Open Scope float_scope.

Global Instance float_inhabited : Inhabited float := populate 0.

(** Python's [min(a, b)] and [max(a, b)]: the second argument replaces
    the first only when the comparison says so. *)
Definition fmin (a b : float) : float := if b <? a then b else a.
Definition fmax (a b : float) : float := if a <? b then b else a.

(** Python's [sum(...)]: a left fold that starts from 0. *)
Definition fsum (l : list float) : float := foldl PrimFloat.add 0 l.

(** [a / b] between two Python floats. *)
Definition pydiv (a b : float) : result float :=
  if b =? 0 then Err ZeroDivisionError else Ok (a / b).

(** [float(n)] for [n = len(assets)]. *)
Definition float_of_nat (n : nat) : float :=
  PrimFloat.of_uint63 (Uint63.of_Z (Z.of_nat n)).

(** [class Costs] *)
Record Costs := mkCosts {
  fee_bps : float;
  slippage_bps : float;
  fixed_per_trade : float
}.

(** One row of [trade_rows]. *)
Record trade := mkTrade {
  t_date : date;
  t_asset : string;
  t_side : side;
  t_qty : float;
  t_price : float;
  t_notional : float;
  t_fee_var : float;
  t_fee_fixed : float;
  t_fee_total : float
}.

(** One row of [equity_rows]. *)
Record equity_row := mkEquity {
  e_date : date;
  e_equity : float;
  e_cash : float;
  e_qty : list (string * float);
  e_val : list (string * float)
}.

(** The mutable locals [cash] and [qty].  [cash_is_numpy] tells whether
    [cash] has become a [numpy.float64]: it starts as the Python float
    of the command line and turns into a [numpy.float64] with the first
    [+=] or [-=] of an amount computed from a price. *)
Record portfolio := mkPortfolio {
  cash : float;
  cash_is_numpy : bool;
  qty : gmap string float
}.

Record DataFrame := mkFrame {
  columns : list string;
  rows : list (date * gmap string float)
}.

Definition index (close : DataFrame) : list date := (rows close).*1.

Definition bps_to_rate (bps : float) : float := bps / 10000.

Definition appended (emitted : list (option trade)) : list trade :=
  omap id emitted.

Definition dict_of (f : string → float) (keys : list string)
  : gmap string float :=
  list_to_map ((λ a, (a, f a)) <$> keys).

(** ** Periodic equal-weight rebalancing (baseline_portfolio.py) *)

Section Execution.
Variable costs : Costs.
Variable dt : date.

Let fee_rate := bps_to_rate (fee_bps costs).
Let slip_rate := bps_to_rate (slippage_bps costs).

(** Lines 79-104.  [dv] and [exec_price] are [numpy.float64], so no
    division raises here, and [cash] is a [numpy.float64] afterwards. *)
Definition sell_branch (a : string) (dv price : float) (p : portfolio)
  : portfolio * option trade :=
  let notional := abs dv in
  if notional <=? 0 then (p, None) else
  let exec_price := price * (1 - slip_rate) in
  let dq := notional / exec_price in
  let dq := fmin dq (qty p !!! a) in
  let notional_exec := dq * exec_price in
  let var_cost := notional_exec * fee_rate in
  let fix_cost := fixed_per_trade costs in
  let total_cost := var_cost + fix_cost in
  (mkPortfolio (cash p + (notional_exec - total_cost)) true
               (<[a := qty p !!! a - dq]> (qty p)),
   Some (mkTrade dt a SELL dq exec_price notional_exec
                 var_cost fix_cost total_cost)).

(** Line 112, [(cash - costs.fixed_per_trade) / (1.0 + fee_rate)]: a
    division of Python floats until [cash] is a [numpy.float64]. *)
Definition affordable (p : portfolio) : result float :=
  if cash_is_numpy p
  then Ok ((cash p - fixed_per_trade costs) / (1 + fee_rate))
  else pydiv (cash p - fixed_per_trade costs) (1 + fee_rate).

(** Lines 107-135.  [notional] is [dv], a [numpy.float64]; when [min]
    returns it, the amounts debited are [numpy.float64] as well. *)
Definition buy_branch (a : string) (notional price : float) (p : portfolio)
  : result (portfolio * option trade) :=
  if notional <=? 0 then Ok (p, None) else
  let exec_price := price * (1 + slip_rate) in
  afford ← affordable p;
  let max_notional_exec := fmax 0 afford in
  let capped := max_notional_exec <? notional in
  let notional_exec := fmin notional max_notional_exec in
  if notional_exec <=? 0 then Ok (p, None) else
  let dq := notional_exec / exec_price in
  let var_cost := notional_exec * fee_rate in
  let fix_cost := fixed_per_trade costs in
  let total_cost := var_cost + fix_cost in
  Ok (mkPortfolio (cash p - (notional_exec + total_cost))
                  (cash_is_numpy p || negb capped)
                  (<[a := qty p !!! a + dq]> (qty p)),
      Some (mkTrade dt a BUY dq exec_price notional_exec
                    var_cost fix_cost total_cost)).

(** One iteration of [for side in ("SELL", "BUY"): for a in assets]. *)
Definition execute (prices delta_val : gmap string float)
    (w : side * string) (p : portfolio) : result (portfolio * option trade) :=
  let '(sd, a) := w in
  let dv := delta_val !!! a in
  match sd with
  | SELL => if dv <? 0 then Ok (sell_branch a dv (prices !!! a) p)
            else Ok (p, None)
  | BUY => if 0 <? dv then buy_branch a dv (prices !!! a) p
           else Ok (p, None)
  end.
End Execution.

(** The closure [portfolio_value]. *)
Definition portfolio_value (assets : list string) (prices : gmap string float)
    (p : portfolio) : float :=
  cash p + fsum ((λ a, qty p !!! a * prices !!! a) <$> assets).

(** [delta_val] of a rebalance day (lines 69-72), with [target_w] of
    line 47. *)
Definition delta_val (assets : list string) (prices : gmap string float)
    (p : portfolio) : gmap string float :=
  let n := length assets in
  let target_w := dict_of (λ _, 1 / float_of_nat n) assets in
  let pv := portfolio_value assets prices p in
  let target_val := dict_of (λ a, pv * target_w !!! a) assets in
  let current_val := dict_of (λ a, qty p !!! a * prices !!! a) assets in
  dict_of (λ a, target_val !!! a - current_val !!! a) assets.

Definition rebalance (costs : Costs) (assets : list string) (dt : date)
    (prices : gmap string float) (p : portfolio)
  : result (portfolio * list (option trade)) :=
  run_steps (execute costs dt prices (delta_val assets prices p))
            (worklist assets) p.

Definition snapshot (assets : list string) (dt : date)
    (prices : gmap string float) (p : portfolio) : equity_row :=
  mkEquity dt (portfolio_value assets prices p) (cash p)
           ((λ a, (a, qty p !!! a)) <$> assets)
           ((λ a, (a, qty p !!! a * prices !!! a)) <$> assets).

(** The body of [for dt, prices in close.iterrows()]. *)
Definition simulate_day (costs : Costs) (assets : list string)
    (rebalance_days : list date) (row : date * gmap string float)
    (p : portfolio) : result (portfolio * (list trade * equity_row)) :=
  let dt := row.1 in
  let prices := row.2 in
  let traded : result (portfolio * list (option trade)) :=
    if decide (dt ∈ rebalance_days) then rebalance costs assets dt prices p
    else Ok (p, []) in
  '(p', emitted) ← traded;
  Ok (p', (appended emitted, snapshot assets dt prices p')).

Definition initial_portfolio (assets : list string) (initial_cash : float)
  : portfolio :=
  mkPortfolio initial_cash false (dict_of (λ _, 0) assets).

(** Returns [(equity, trades)]. *)
Definition simulate_equal_weight_monthly_rebalance (close : DataFrame)
    (initial_cash : float) (costs : Costs)
  : result (list equity_row * list trade) :=
  let assets := columns close in
  let rebalance_days := first_trading_day_each_month (index close) in
  '(_, out) ← run_steps (simulate_day costs assets rebalance_days)
                         (rows close) (initial_portfolio assets initial_cash);
  Ok (out.*2, concat out.*1).

(** ** Single-entry buy-and-hold (buyhold_portfolio.py) *)

(** Lines 76-103, the body of [for a in assets].  Every number here is a
    Python float ([float(initial_cash)], [float(first_prices[a])]), so
    both divisions raise on a zero divisor. *)
Definition buyhold_entry (costs : Costs) (first_dt : date)
    (first_prices : result (gmap string float)) (initial_cash w : float)
    (a : string) (p : portfolio) : result (portfolio * option trade) :=
  let fee_rate := bps_to_rate (fee_bps costs) in
  let slip_rate := bps_to_rate (slippage_bps costs) in
  let target_notional := initial_cash * w in
  prices ← first_prices;
  let exec_price := prices !!! a * (1 + slip_rate) in
  afford ← pydiv (cash p - fixed_per_trade costs) (1 + fee_rate);
  let max_notional_exec := fmax 0 afford in
  let notional_exec := fmin target_notional max_notional_exec in
  if notional_exec <=? 0 then Ok (p, None) else
  dq ← pydiv notional_exec exec_price;
  let var_cost := notional_exec * fee_rate in
  let fix_cost := fixed_per_trade costs in
  let total_cost := var_cost + fix_cost in
  Ok (mkPortfolio (cash p - (notional_exec + total_cost)) false
                  (<[a := qty p !!! a + dq]> (qty p)),
      Some (mkTrade first_dt a BUY dq exec_price notional_exec
                    var_cost fix_cost total_cost)).

(** [close.loc[first_dt]]: one row when the first date is unique in the
    index, and a frame otherwise, on which [float(first_prices[a])]
    raises. *)
Definition loc (close : DataFrame) (d : date) : result (gmap string float) :=
  match filter (λ r, r.1 = d) (rows close) with
  | r :: nil => Ok r.2
  | _ => Err TypeError
  end.

(** Returns [(equity, trades)]. *)
Definition simulate_buyhold_equal_weight (close : DataFrame)
    (initial_cash : float) (costs : Costs)
  : result (list equity_row * list trade) :=
  let assets := columns close in
  let n := length assets in
  w ← pydiv 1 (float_of_nat n);
  first_dt ← match index close with
             | [] => Err IndexError
             | d :: _ => Ok d
             end;
  let first_prices := loc close first_dt in
  '(p, emitted) ← run_steps
                     (buyhold_entry costs first_dt first_prices initial_cash w)
                     assets (initial_portfolio assets initial_cash);
  Ok ((λ r, snapshot assets r.1 r.2 p) <$> rows close, appended emitted).

(** ** The panel loader and [main] *)

(** A cell as [read_csv] delivers it: a number, a text that is not a
    number, or nothing. *)
Inductive cell := Num (x : float) | Text (s : string) | Missing.

Record csv := mkCsv {
  csv_columns : list string;
  csv_rows : list (date * gmap string cell)
}.

(** [pd.to_numeric(..., errors="coerce")] followed by the [isna()]
    test; [None] is a cell that [isna()] finds. *)
Definition to_numeric (c : cell) : option float :=
  match c with
  | Num x => if is_nan x then None else Some x
  | Text _ | Missing => None
  end.

Definition coerce_row (cols : list string) (r : gmap string cell)
  : option (gmap string float) :=
  list_to_map <$>
    mapM (λ c, x ← (r !! c ≫= to_numeric); Some (c, x)) cols.

Definition load_panel_close (f : csv) : result DataFrame :=
  let df := sort_values (csv_rows f) in
  match mapM (λ r, m ← coerce_row (csv_columns f) r.2; Some (r.1, m)) df with
  | Some rs => Ok (mkFrame (csv_columns f) rs)
  | None => Err ValueError
  end.




(** ** Derived notions and concrete inputs *)

(** The iterations of the SELL pass in a given order of the assets. *)
Definition sell_pass (costs : Costs) (dt : date)
    (prices delta_val : gmap string float) (order : list string)
    (p : portfolio) : result (portfolio * list (option trade)) :=
  run_steps (execute costs dt prices delta_val) (pass SELL order) p.

(** What the SELL iteration for asset [a] does when it starts from [p]. *)
Definition sell_alone (costs : Costs) (dt : date)
    (prices delta_val : gmap string float) (p : portfolio) (a : string)
  : portfolio * option trade :=
  if delta_val !!! a <? 0
  then sell_branch costs dt a (delta_val !!! a) (prices !!! a) p
  else (p, None).

(** Reading the tables of a run. *)
Definition ledger (r : result (list equity_row * list trade)) : list trade :=
  match r with Ok (_, trades) => trades | Err _ => [] end.

Definition equity_curve (r : result (list equity_row * list trade))
  : list equity_row :=
  match r with Ok (equity, _) => equity | Err _ => [] end.

(** The defaults of [class Costs] and of the command line. *)
Definition default_costs : Costs := mkCosts 5 2 0.

Definition one_asset (y m d : Z) (a : float) : date * gmap string float :=
  (mkDate y m d, {["A" := a]}).

Definition two_assets (y m d : Z) (a b : float) : date * gmap string float :=
  (mkDate y m d, <["A" := a]> (<["B" := b]> ∅)).

(** One asset on one date. *)
Definition single_panel : DataFrame :=
  mkFrame ["A"] [one_asset 2020 1 2 100].


(** Four assets that start at 100; a month later three have risen a
    little and one has lost two fifths.  [after_first_day] is the
    portfolio with which a default run on this panel enters the second
    date, and [second_deltas] the table of deltas of that rebalance. *)
Definition four_assets (y m d : Z) (a b c e : float)
  : date * gmap string float :=
  (mkDate y m d, <["A" := a]> (<["B" := b]> (<["C" := c]> (<["D" := e]> ∅)))).

Definition four_panel : DataFrame :=
  mkFrame ["A"; "B"; "C"; "D"]
          [four_assets 2020 1 2 100 100 100 100;
           four_assets 2020 2 3 101 102 103 60].

Definition after_first_day : portfolio :=
  match simulate_day default_costs (columns four_panel)
          (first_trading_day_each_month (index four_panel))
          (four_assets 2020 1 2 100 100 100 100)
          (initial_portfolio (columns four_panel) 1000) with
  | Ok (p, _) => p
  | Err _ => initial_portfolio (columns four_panel) 1000
  end.

Definition second_prices : gmap string float :=
  (four_assets 2020 2 3 101 102 103 60).2.

Definition second_deltas : gmap string float :=
  delta_val (columns four_panel) second_prices after_first_day.

(** A file of two assets over three months, and command lines on it:
    one with every cost parameter negative, one with negative and one
    with zero initial cash. *)
Definition line_AB (y m d : Z) (a b : float) : date * gmap string cell :=
  (mkDate y m d, <["A" := Num a]> (<["B" := Num b]> ∅)).

Definition falling_csv : csv :=
  mkCsv ["A"; "B"]
        [line_AB 2020 1 2 1 1;
         line_AB 2020 2 3 0.5 1;
         line_AB 2020 3 2 0.25 1].

Definition falling_panel : DataFrame :=
  mkFrame ["A"; "B"]
          [two_assets 2020 1 2 1 1;
           two_assets 2020 2 3 0.5 1;
           two_assets 2020 3 2 0.25 1].




End Binary64.

(** * Arithmetic on [Qc] *)

Lemma Qc_eq_this (x y : Qc) : x = y ↔ (this x == this y)%Q.
Proof. split; [intros ->; reflexivity | apply Qc_is_canon]. Qed.

(** Linear goals over [Qc] are sent to [lra] on the underlying
    fractions; products of variables are atoms there. *)
Ltac qc_lra :=
  repeat match goal with
  | H : @eq Qc _ _ |- _ => apply Qc_eq_this in H
  | H : ¬ @eq Qc _ _ |- _ => rewrite Qc_eq_this in H
  | |- @eq Qc _ _ => apply Qc_is_canon
  | |- ¬ @eq Qc _ _ => rewrite Qc_eq_this
  end;
  unfold Qcle, Qclt, Qcminus, Qcplus, Qcmult, Qcopp, Q2Qc in *;
  simpl in *;
  rewrite ?Qred_correct in *;
  lra.

(** Reduces a bind whose first computation is known. *)
Ltac run_bind := cbv beta iota delta [mbind result_bind].

Section Arith.
Implicit Types a b c d n x y : Qc.

Lemma Qc_lt_irrefl x : ¬ x < x.
Proof. intros H. by apply Qclt_not_eq in H. Qed.

Lemma Qc_pos_neq0 d : 0 < d → d ≠ 0.
Proof. intros H ->. by apply Qc_lt_irrefl in H. Qed.

Lemma Qc_div_mul d c : d ≠ 0 → c / d * d = c.
Proof. intros. field. done. Qed.

Lemma Qc_le_div_mul n c d : 0 < d → n ≤ c / d → n * d ≤ c.
Proof.
  intros Hd H. rewrite <- (Qc_div_mul d c) by by apply Qc_pos_neq0.
  apply Qcmult_le_compat_r; [done | by apply Qclt_le_weak].
Qed.

Lemma Qc_div_pos a d : 0 < a → 0 < d → 0 < a / d.
Proof.
  intros Ha Hd. apply Qcnot_le_lt. intros H.
  apply (Qcmult_le_compat_r _ _ d) in H; [|by apply Qclt_le_weak].
  rewrite Qc_div_mul, Qcmult_0_l in H by by apply Qc_pos_neq0.
  by apply Qcle_not_lt in H.
Qed.

Lemma Qc_mul_pos a b : 0 < a → 0 < b → 0 < a * b.
Proof.
  intros Ha Hb. rewrite <- (Qcmult_0_l b). by apply Qcmult_lt_compat_r.
Qed.

Lemma bps_to_rate_scale b : bps_to_rate b * qz 10000 = b.
Proof. unfold bps_to_rate. by apply Qc_div_mul. Qed.

Lemma bps_to_rate_nonneg b : 0 ≤ b → 0 ≤ bps_to_rate b.
Proof.
  intros H. apply (Qcmult_lt_0_le_reg_r _ _ (qz 10000)); [done|].
  by rewrite bps_to_rate_scale, Qcmult_0_l.
Qed.

Lemma fmin_le_l a b : fmin a b ≤ a.
Proof. unfold fmin. case_decide; [by apply Qclt_le_weak | apply Qcle_refl]. Qed.

Lemma fmin_le_r a b : fmin a b ≤ b.
Proof. unfold fmin. case_decide; [apply Qcle_refl | by apply Qcnot_lt_le]. Qed.


Lemma fdiv_Ok a b : b ≠ 0 → fdiv a b = Ok (a / b).
Proof. unfold fdiv. by case_decide. Qed.

Lemma fdiv_inv a b q : fdiv a b = Ok q → b ≠ 0 ∧ q = a / b.
Proof. unfold fdiv. case_decide; [done|]. by intros [= <-]. Qed.
End Arith.

(** * The two branches *)

Section Branches.
Variable costs : Costs.
Variable dt : date.

Let fee_rate := bps_to_rate (fee_bps costs).
Let slip_rate := bps_to_rate (slippage_bps costs).
Let fixed_fee := fixed_per_trade costs.

Lemma buy_branch_inv a notional price p p' ot :
  buy_branch costs dt a notional price p = Ok (p', ot) →
  1 + fee_rate ≠ 0 ∧
  let ne := sized costs notional (cash p) in
  let ep := price * (1 + slip_rate) in
  (ne ≤ 0 ∧ p' = p ∧ ot = None) ∨
  (0 < ne ∧ ep ≠ 0 ∧
   p' = mkPortfolio (cash p - (ne + (ne * fee_rate + fixed_fee)))
                    (<[a := qty p !!! a + ne / ep]> (qty p)) ∧
   ot = Some (mkTrade dt a BUY (ne / ep) ep ne (ne * fee_rate) fixed_fee
                      (ne * fee_rate + fixed_fee))).
Proof.
  unfold buy_branch, sized. fold fee_rate slip_rate fixed_fee.
  destruct (fdiv (cash p - fixed_fee) (1 + fee_rate)) as [af|] eqn:Haf;
    [|done].
  apply fdiv_inv in Haf as [Hne ->]. run_bind.
  intros Hb. split; [done|]. revert Hb. case_decide as Hle.
  - intros [= <- <-]. by left.
  - destruct (fdiv _ (price * (1 + slip_rate))) as [dq|] eqn:Hdq; [|done].
    apply fdiv_inv in Hdq as [Hep ->]. run_bind.
    intros [= <- <-]. right. split; [by apply Qcnot_le_lt | done].
Qed.

Lemma buy_branch_skip a notional price p :
  1 + fee_rate ≠ 0 → sized costs notional (cash p) ≤ 0 →
  buy_branch costs dt a notional price p = Ok (p, None).
Proof.
  intros Hfee Hle. unfold buy_branch, sized in *.
  rewrite fdiv_Ok by done. run_bind. by rewrite decide_True.
Qed.

Lemma buy_branch_trade a notional price p :
  1 + fee_rate ≠ 0 → 0 < sized costs notional (cash p) →
  price * (1 + slip_rate) ≠ 0 →
  ∃ p' t, buy_branch costs dt a notional price p = Ok (p', Some t).
Proof.
  intros Hfee Hpos Hep. unfold buy_branch, sized in *.
  rewrite fdiv_Ok by done. run_bind.
  rewrite decide_False by by apply Qclt_not_le.
  rewrite fdiv_Ok by done. run_bind. eauto.
Qed.


End Branches.

(** * Loops and their traces *)

Section Steps.
Context {A S O : Type}.
Variable f : A → S → result (S * O).

Lemma run_steps_cons a l s :
  run_steps f (a :: l) s =
  match f a s with
  | Ok (s1, o) =>
      match run_steps f l s1 with
      | Ok (s2, os) => Ok (s2, o :: os)
      | Err e => Err e
      end
  | Err e => Err e
  end.
Proof. simpl. destruct (f a s) as [[s1 o]|]; [|done]. simpl.
  by destruct (run_steps f l s1) as [[s2 os]|]. Qed.

Lemma run_steps_cons_Ok a l s s1 o :
  f a s = Ok (s1, o) →
  run_steps f (a :: l) s =
  match run_steps f l s1 with
  | Ok (s2, os) => Ok (s2, o :: os)
  | Err e => Err e
  end.
Proof. intros Hf. by rewrite run_steps_cons, Hf. Qed.


Lemma run_steps_app l1 l2 s :
  run_steps f (l1 ++ l2) s =
  match run_steps f l1 s with
  | Ok (s1, os1) =>
      match run_steps f l2 s1 with
      | Ok (s2, os2) => Ok (s2, os1 ++ os2)
      | Err e => Err e
      end
  | Err e => Err e
  end.
Proof.
  revert s. induction l1 as [|a l1 IH]; intros s.
  - simpl. by destruct (run_steps f l2 s) as [[s2 os2]|].
  - rewrite <- app_comm_cons, !run_steps_cons.
    destruct (f a s) as [[s1 o]|]; [|done]. rewrite IH.
    destruct (run_steps f l1 s1) as [[s2 os2]|]; [|done].
    by destruct (run_steps f l2 s2) as [[s3 os3]|].
Qed.


(** A loop whose iterations cannot fail returns. *)
Lemma run_steps_total (I : S → Prop) l s :
  (∀ a s0, a ∈ l → I s0 → ∃ s1 o, f a s0 = Ok (s1, o) ∧ I s1) →
  I s →
  ∃ s' os, run_steps f l s = Ok (s', os) ∧ I s' ∧ length os = length l.
Proof.
  revert s. induction l as [|a l IH]; intros s Hstep Hs.
  - by exists s, [].
  - destruct (Hstep a s) as (s1 & o & Hf & Hs1); [by left|done|].
    destruct (IH s1) as (s2 & os & Hr & Hs2 & Hlen); [|done|].
    { intros a0 s0 Hin. apply Hstep. by right. }
    exists s2, (o :: os). rewrite run_steps_cons, Hf, Hr. simpl. auto.
Qed.
End Steps.

(** * Dictionaries built by comprehension *)

Lemma dict_of_cons f k ks : dict_of f (k :: ks) = <[k := f k]> (dict_of f ks).
Proof. done. Qed.

Lemma dict_of_lookup f ks a : a ∈ ks → dict_of f ks !!! a = f a.
Proof.
  induction ks as [|k ks IH]; [by intros ?%elem_of_nil|].
  rewrite dict_of_cons. destruct (decide (k = a)) as [->|Hne].
  - intros _. by rewrite lookup_total_insert_eq.
  - intros [?|?]%elem_of_cons; [congruence|].
    rewrite lookup_total_insert_ne by done. by apply IH.
Qed.

Lemma dict_of_lookup_miss f ks a : a ∉ ks → dict_of f ks !!! a = 0.
Proof.
  induction ks as [|k ks IH]; [done|].
  rewrite dict_of_cons. intros [Hne Hin]%not_elem_of_cons.
  rewrite lookup_total_insert_ne by done. by apply IH.
Qed.

Lemma delta_val_lookup assets prices p a :
  a ∈ assets →
  delta_val assets prices p !!! a =
  portfolio_value assets prices p * (1 / qz (Z.of_nat (length assets)))
  - qty p !!! a * prices !!! a.
Proof. intros Hin. unfold delta_val. by rewrite !dict_of_lookup. Qed.

(** * One iteration of a rebalance *)


Section Execute.
Variable costs : Costs.
Variable dt : date.
Variables prices dv : gmap string Qc.

Let slip_rate := bps_to_rate (slippage_bps costs).



End Execute.

(** * Whole runs of the periodic simulator *)

Lemma appended_app l1 l2 : appended (l1 ++ l2) = appended l1 ++ appended l2.
Proof. unfold appended. apply omap_app. Qed.










(** * Runs in which a fixed charge exceeds the proceeds of a sale *)

(** C1 (the code departs from it).  On [falling_panel], with 48 of
    initial cash, no fee, no slippage and a fixed charge of 16 per
    order, every input is as the claim requires, the run returns, and
    the SELL of February starts from a cash balance of 8, credits 2 of
    proceeds, charges 16, and leaves the cash balance at -6. *)
Theorem sell_can_overdraw_cash :
  positive_prices falling_panel ∧
  0 ≤ fee_bps fixed_only_costs ∧ 0 ≤ slippage_bps fixed_only_costs ∧
  0 ≤ fixed_per_trade fixed_only_costs ∧ 0 ≤ qz 48 ∧
  is_Ok (simulate_equal_weight_monthly_rebalance
           falling_panel (qz 48) fixed_only_costs) ∧
  Exists (λ e, ev_side e = SELL ∧ is_Some (ev_trade e) ∧
               cash (ev_before e) = qz 8 ∧ cash (ev_after e) = qz (-6))
         (simulation_events falling_panel (qz 48) fixed_only_costs) ∧
  (λ r, this (e_cash r)) <$>
    equity_curve (simulate_equal_weight_monthly_rebalance
                    falling_panel (qz 48) fixed_only_costs)
  = [8 # 1; -6 # 1; -33 # 1]%Q.
Proof.
  split; [apply (bool_decide_unpack _); vm_compute; exact I|].
  do 4 (split; [vm_compute; discriminate|]).
  split; [|split].
  - destruct (simulate_equal_weight_monthly_rebalance _ _ _) as [r|e] eqn:Hr.
    + by exists r.
    + vm_compute in Hr. discriminate.
  - apply (bool_decide_unpack _). vm_compute. exact I.
  - vm_compute. reflexivity.
Qed.

(** C3 (the code departs from it).  In the same run the March rebalance
    reaches asset B, of which nothing is held, with a negative delta:
    the liquidated quantity is clamped to zero, and still a SELL row of
    quantity zero and notional zero is appended to the ledger and the
    fixed charge of 16 is taken from cash. *)
Theorem zero_quantity_sell_is_recorded :
  Exists (λ e, ev_side e = SELL ∧ ev_asset e = "B" ∧
               qty (ev_before e) !!! "B" = 0 ∧
               (t_qty <$> ev_trade e) = Some 0 ∧
               (t_notional <$> ev_trade e) = Some 0 ∧
               cash (ev_after e) = cash (ev_before e) - qz 16)
         (simulation_events falling_panel (qz 48) fixed_only_costs) ∧
  Exists (λ t, t_side t = SELL ∧ t_qty t = 0)
         (ledger (simulate_equal_weight_monthly_rebalance
                    falling_panel (qz 48) fixed_only_costs)).
Proof.
  split; apply (bool_decide_unpack _); vm_compute; exact I.
Qed.

(** * The order of the ledger *)









(** * Single-entry buy-and-hold *)

Lemma date_lt_irrefl d : ¬ date_lt d d.
Proof. unfold date_lt. lia. Qed.

Lemma date_lt_trans d1 d2 d3 : date_lt d1 d2 → date_lt d2 d3 → date_lt d1 d3.
Proof. unfold date_lt. lia. Qed.

Lemma filter_none {A} (P : A → Prop) `{∀ x, Decision (P x)} (l : list A) :
  Forall (λ x, ¬ P x) l → filter P l = [].
Proof.
  induction 1 as [|x l Hx _ IH]; [done|]. by rewrite filter_cons_False.
Qed.

(** On strictly increasing dates [close.loc[first_dt]] is the first row. *)
Lemma loc_first cols row rws :
  strictly_increasing (row :: rws).*1 →
  loc (mkFrame cols (row :: rws)) row.1 = Ok row.2.
Proof.
  unfold strictly_increasing. rewrite fmap_cons.
  intros [Hlater _]%StronglySorted_cons.
  unfold loc. simpl. rewrite filter_cons_True by done.
  rewrite filter_none; [done|]. apply list.Forall_forall.
  intros r Hr Heq. rewrite list.Forall_forall in Hlater.
  apply (date_lt_irrefl row.1). rewrite <- Heq at 2.
  apply Hlater. by apply list_elem_of_fmap_2.
Qed.


Section Buyhold.
Variable costs : Costs.
Variable first_dt : date.
Variable prices : gmap string Qc.
Variables initial_cash w : Qc.


Lemma buyhold_entry_total a p :
  1 + bps_to_rate (fee_bps costs) ≠ 0 →
  prices !!! a * (1 + bps_to_rate (slippage_bps costs)) ≠ 0 →
  ∃ p' o, buyhold_entry costs first_dt (Ok prices) initial_cash w a p
          = Ok (p', o).
Proof.
  intros Hfee Hep. unfold buyhold_entry. simpl.
  destruct (Qclt_le_dec 0 (sized costs (initial_cash * w) (cash p)))
    as [Hpos|Hle].
  - destruct (buy_branch_trade costs first_dt a (initial_cash * w)
                (prices !!! a) p Hfee Hpos Hep) as (p' & t & ->). eauto.
  - rewrite (buy_branch_skip costs first_dt a (initial_cash * w)
               (prices !!! a) p Hfee Hle). eauto.
Qed.
End Buyhold.

Lemma qz_of_nat_neq0 n : n ≠ 0%nat → qz (Z.of_nat n) ≠ 0.
Proof.
  intros Hn Hq. apply Qc_eq_this in Hq. unfold qz in Hq. simpl in Hq.
  rewrite Qred_correct in Hq. unfold Qeq in Hq. simpl in Hq. lia.
Qed.






(** * The panel loader *)

Lemma date_le_trans d1 d2 d3 : date_le d1 d2 → date_le d2 d3 → date_le d1 d3.
Proof.
  intros [H12| ->] [H23| ->]; [left|left|left|right]; try done.
  by eapply date_lt_trans.
Qed.

Lemma date_fields_eq d1 d2 :
  year d1 = year d2 → month d1 = month d2 → day d1 = day d2 → d1 = d2.
Proof. destruct d1, d2. simpl. by intros -> -> ->. Qed.

Lemma date_not_lt_le d1 d2 : ¬ date_lt d1 d2 → date_le d2 d1.
Proof.
  intros Hn. destruct (decide (d2 = d1)) as [->|Hne]; [by right|left].
  assert (year d2 ≠ year d1 ∨ month d2 ≠ month d1 ∨ day d2 ≠ day d1) as Hf.
  { destruct (decide (year d2 = year d1)); [|by left].
    destruct (decide (month d2 = month d1)); [|by right; left].
    destruct (decide (day d2 = day d1)); [|by right; right].
    destruct Hne. by apply date_fields_eq. }
  unfold date_lt in *. lia.
Qed.

Section Sorting.
Context {A : Type}.
Implicit Types (r : date * A) (l : list (date * A)).

Let by_date r1 r2 : Prop := date_le r1.1 r2.1.

Lemma insert_by_date_perm r l : insert_by_date r l ≡ₚ r :: l.
Proof.
  induction l as [|x l IH]; [done|]. simpl. case_decide; [|done].
  rewrite IH. apply Permutation_swap.
Qed.

Lemma sort_values_perm l : sort_values l ≡ₚ l.
Proof.
  induction l as [|r l IH]; [done|]. unfold sort_values. simpl.
  rewrite insert_by_date_perm. by constructor.
Qed.

Lemma insert_by_date_sorted r l :
  StronglySorted by_date l → StronglySorted by_date (insert_by_date r l).
Proof.
  induction 1 as [|x l Hl IH Hx]; simpl.
  - repeat constructor.
  - case_decide as Hlt.
    + constructor; [done|].
      rewrite insert_by_date_perm. constructor; [by left | done].
    + apply date_not_lt_le in Hlt.
      constructor; [by constructor|]. constructor; [done|].
      eapply list.Forall_impl; [exact Hx|].
      intros y Hy. by eapply date_le_trans.
Qed.

Lemma sort_values_sorted l : StronglySorted by_date (sort_values l).
Proof.
  induction l as [|r l IH]; [constructor|].
  by apply insert_by_date_sorted.
Qed.

Lemma sort_values_dates_sorted l : StronglySorted date_le (sort_values l).*1.
Proof.
  pose proof (sort_values_sorted l) as H.
  induction H as [|x k Hk IH Hx]; [constructor|].
  rewrite fmap_cons. constructor; [done|]. by apply Forall_fmap.
Qed.
End Sorting.

(** Dates in ascending order and without repetition are strictly
    increasing, and conversely. *)
Lemma sorted_nodup_strict (idx : list date) :
  StronglySorted date_le idx →
  (NoDup idx ↔ strictly_increasing idx).
Proof.
  unfold strictly_increasing. induction 1 as [|d l Hl IH Hd].
  - split; constructor.
  - rewrite NoDup_cons, StronglySorted_cons, <- IH. split.
    + intros [Hnotin Hnd]. split; [|done].
      rewrite list.Forall_forall in Hd. apply list.Forall_forall.
      intros x Hx. destruct (Hd x Hx) as [?| ->]; done.
    + intros [Hlt Hnd]. split; [|done].
      rewrite list.Forall_forall in Hlt. intros Hin.
      by apply (date_lt_irrefl d), Hlt.
Qed.

Lemma load_panel_close_inv f close :
  load_panel_close f = Ok close →
  columns close = csv_columns f ∧ index close = (sort_values (csv_rows f)).*1.
Proof.
  unfold load_panel_close.
  destruct (mapM _ _) as [rs|] eqn:Hm; [|done]. intros [= <-].
  split; [done|]. unfold index. simpl.
  apply mapM_Some_1 in Hm.
  induction Hm as [|r r' l k Hr _ IH]; [done|].
  rewrite !fmap_cons, IH. f_equal.
  destruct (coerce_row _ _) as [m|]; [|done]. by injection Hr as <-.
Qed.

(** C4, as the code has it.  The loader sorts the rows by date ascending
    and keeps every one of them: the dates of the panel are those of the
    file with their repetitions, in non-decreasing order, and they are
    strictly increasing exactly when the file has no repeated date. *)
Theorem load_panel_close_sorts_keeps_all (f : csv) (close : DataFrame) :
  load_panel_close f = Ok close →
  columns close = csv_columns f ∧
  index close ≡ₚ (csv_rows f).*1 ∧
  StronglySorted date_le (index close) ∧
  (NoDup (csv_rows f).*1 ↔ strictly_increasing (index close)).
Proof.
  intros [Hcols Hidx]%load_panel_close_inv. rewrite Hidx.
  assert (Hperm : (sort_values (csv_rows f)).*1 ≡ₚ (csv_rows f).*1).
  { by rewrite sort_values_perm. }
  split; [done|]. split; [done|].
  split; [apply sort_values_dates_sorted|].
  rewrite <- Hperm. apply sorted_nodup_strict, sort_values_dates_sorted.
Qed.

Lemma load_panel_close_sorts_keeps_all_witness :
  ∃ close,
    load_panel_close repeated_dates_csv = Ok close ∧
    index close ≡ₚ (csv_rows repeated_dates_csv).*1 ∧
    StronglySorted date_le (index close).
Proof.
  destruct (load_panel_close repeated_dates_csv) as [close|e] eqn:Hload.
  - exists close.
    destruct (load_panel_close_sorts_keeps_all _ _ Hload)
      as (_ & Hperm & Hsorted & _).
    split; [reflexivity|]. split; [exact Hperm | exact Hsorted].
  - vm_compute in Hload. discriminate.
Defined.

(** C4 as stated fails: a file that holds the date 2020-01-02 twice is
    loaded with both lines, so the dates of the panel repeat and are not
    strictly increasing. *)
Lemma loader_keeps_repeated_dates :
  match load_panel_close repeated_dates_csv with
  | Ok close =>
      index close = [mkDate 2020 1 2; mkDate 2020 1 2; mkDate 2020 1 3] ∧
      length (rows close) = length (csv_rows repeated_dates_csv) ∧
      ¬ NoDup (index close) ∧
      ¬ strictly_increasing (index close)
  | Err _ => False
  end.
Proof.
  destruct (load_panel_close repeated_dates_csv) as [close|e] eqn:Hload;
    vm_compute in Hload; [|discriminate].
  injection Hload as <-.
  split; [reflexivity|]. split; [reflexivity|]. split.
  - intros Hnd. apply NoDup_cons in Hnd as [Hnotin _].
    apply Hnotin. by left.
  - intros Hs. apply StronglySorted_cons in Hs as [Hlt _].
    apply Forall_cons in Hlt as [Hlt _]. by apply date_lt_irrefl in Hlt.
Qed.

Lemma load_panel_close_length f close :
  load_panel_close f = Ok close → length (rows close) = length (csv_rows f).
Proof.
  intros [_ Hidx]%load_panel_close_inv.
  apply (f_equal length) in Hidx. unfold index in Hidx.
  rewrite !length_fmap in Hidx. rewrite Hidx.
  apply Permutation_length, sort_values_perm.
Qed.

Lemma falling_csv_loads : load_panel_close falling_csv = Ok falling_panel.
Proof. vm_compute. reflexivity. Defined.

(** * The order of the assets within a pass *)

Lemma run_steps_fmap {A B S O} (f : B → S → result (S * O)) (g : A → B) l s :
  run_steps f (g <$> l) s = run_steps (λ a, f (g a)) l s.
Proof.
  revert s. induction l as [|a l IH]; intros s; [done|].
  rewrite fmap_cons, !run_steps_cons.
  destruct (f (g a) s) as [[s1 o]|]; [|done]. by rewrite IH.
Qed.

Lemma fsum_from x l : foldl Qcplus x l = x + fsum l.
Proof.
  unfold fsum. revert x. induction l as [|y l IH]; intros x; simpl.
  - ring.
  - rewrite (IH (x + y)), (IH (0 + y)). ring.
Qed.

Lemma fsum_cons x l : fsum (x :: l) = x + fsum l.
Proof. unfold fsum at 1. simpl. rewrite fsum_from. ring. Qed.

(** C2 as stated fails: with 48 of cash and a fixed charge of 16 per
    order, the first rebalance buys 24 of the asset it visits first and
    nothing of the other, the cash left (8) being less than the fixed
    charge.  The final holdings depend on the order of the assets. *)
Lemma rebalance_order_matters :
  ["A"; "B"] ≡ₚ ["B"; "A"] ∧
  final_holding (rebalance fixed_only_costs ["A"; "B"] first_date first_prices
                           (initial_portfolio ["A"; "B"] (qz 48))) "A" = 24%Q ∧
  final_holding (rebalance fixed_only_costs ["B"; "A"] first_date first_prices
                           (initial_portfolio ["A"; "B"] (qz 48))) "A" = 0%Q ∧
  ¬ same_outcome
      (rebalance fixed_only_costs ["A"; "B"] first_date first_prices
                 (initial_portfolio ["A"; "B"] (qz 48)))
      (rebalance fixed_only_costs ["B"; "A"] first_date first_prices
                 (initial_portfolio ["A"; "B"] (qz 48))).
Proof.
  assert (H1 : final_holding
                 (rebalance fixed_only_costs ["A"; "B"] first_date first_prices
                            (initial_portfolio ["A"; "B"] (qz 48))) "A" = 24%Q)
    by (vm_compute; reflexivity).
  assert (H2 : final_holding
                 (rebalance fixed_only_costs ["B"; "A"] first_date first_prices
                            (initial_portfolio ["A"; "B"] (qz 48))) "A" = 0%Q)
    by (vm_compute; reflexivity).
  split; [apply Permutation_swap|]. split; [exact H1|]. split; [exact H2|].
  intros Hsame.
  destruct (rebalance fixed_only_costs ["A"; "B"] _ _ _) as [[p1 os1]|e1],
           (rebalance fixed_only_costs ["B"; "A"] _ _ _) as [[p2 os2]|e2];
    simpl in *; try done.
  destruct Hsame as [-> _]. rewrite H1 in H2. discriminate.
Qed.

(** * Further properties of the code *)

(** ** [first_trading_day_each_month] *)

Lemma first_days_cons seen d idx :
  first_days seen (d :: idx) =
  if decide (month_key d ∈ seen) then first_days seen idx
  else d :: first_days (month_key d :: seen) idx.
Proof. done. Qed.

Lemma first_days_spec seen idx :
  sublist (first_days seen idx) idx ∧
  NoDup (month_key <$> first_days seen idx) ∧
  (∀ d, d ∈ first_days seen idx → month_key d ∉ seen) ∧
  (∀ x, x ∈ idx →
        month_key x ∈ seen ∨
        ∃ d, d ∈ first_days seen idx ∧ month_key d = month_key x).
Proof.
  revert seen. induction idx as [|d idx IH]; intros seen.
  - repeat split; [constructor | constructor | by intros d ?%elem_of_nil
                   | by intros x ?%elem_of_nil].
  - rewrite first_days_cons. case_decide as Hseen.
    + destruct (IH seen) as (Hsub & Hnd & Hfresh & Hcov).
      repeat split; [by constructor | done | done |].
      intros x [->|Hx]%elem_of_cons; [by left | by apply Hcov].
    + destruct (IH (month_key d :: seen)) as (Hsub & Hnd & Hfresh & Hcov).
      repeat split.
      * by constructor.
      * rewrite fmap_cons. constructor; [|done].
        intros (d' & Hk & Hd')%list_elem_of_fmap.
        apply (Hfresh d' Hd'). rewrite <- Hk. by left.
      * intros d' [->|Hd']%elem_of_cons; [done|].
        intros Hin. apply (Hfresh d' Hd'). by right.
      * intros x [->|Hx]%elem_of_cons.
        -- right. exists d. split; [by left | done].
        -- destruct (Hcov x Hx) as [[Hk|Hk]%elem_of_cons | (d' & Hd' & Hk)].
           ++ right. exists d. split; [by left | done].
           ++ by left.
           ++ right. exists d'. split; [by right | done].
Qed.

(** X1.  The rebalance days are dates of the index, in index order; no
    two of them lie in the same month; every date of the index has a
    rebalance day in its month; and the first date of the index is a
    rebalance day. *)
Theorem rebalance_days_one_per_month (idx : list date) :
  sublist (first_trading_day_each_month idx) idx ∧
  NoDup (month_key <$> first_trading_day_each_month idx) ∧
  (∀ x, x ∈ idx →
        ∃ d, d ∈ first_trading_day_each_month idx ∧
             month_key d = month_key x) ∧
  (∀ d rest, idx = d :: rest → d ∈ first_trading_day_each_month idx).
Proof.
  unfold first_trading_day_each_month.
  destruct (first_days_spec [] idx) as (Hsub & Hnd & _ & Hcov).
  repeat split; [done | done | |].
  - intros x Hx. by destruct (Hcov x Hx) as [?%elem_of_nil|?].
  - intros d rest ->. rewrite first_days_cons.
    rewrite decide_False by apply not_elem_of_nil. by left.
Qed.

(** On an index in ascending order, the rebalance day of a month is its
    earliest date in the index. *)
Lemma first_days_earliest seen idx :
  StronglySorted date_le idx →
  ∀ x, x ∈ idx →
       month_key x ∈ seen ∨
       ∃ d, d ∈ first_days seen idx ∧ month_key d = month_key x ∧ date_le d x.
Proof.
  intros Hsorted. revert seen.
  induction Hsorted as [|d idx Hs IH Hd]; intros seen x Hx;
    [by apply elem_of_nil in Hx|].
  rewrite list.Forall_forall in Hd. rewrite first_days_cons.
  case_decide as Hseen.
  - apply elem_of_cons in Hx as [->|Hx]; [by left | by apply IH].
  - apply elem_of_cons in Hx as [->|Hx].
    + right. exists d. split; [by left|]. split; [done | by right].
    + destruct (IH (month_key d :: seen) x Hx)
        as [[Hk|Hk]%elem_of_cons | (d' & Hd' & Hk & Hle)].
      * right. exists d. split; [by left|]. split; [done | by apply Hd].
      * by left.
      * right. exists d'. split; [by right | done].
Qed.

(** X2.  On an index in ascending order every date has a rebalance day
    in its own month that is not later than it: the policy fires on the
    earliest date of each month that the panel holds. *)
Theorem rebalance_day_is_earliest_of_month (idx : list date) (x : date) :
  StronglySorted date_le idx → x ∈ idx →
  ∃ d, d ∈ first_trading_day_each_month idx ∧
       month_key d = month_key x ∧ date_le d x.
Proof.
  intros Hsorted Hx.
  by destruct (first_days_earliest [] idx Hsorted x Hx) as [?%elem_of_nil|?].
Qed.

Lemma rebalance_day_is_earliest_of_month_witness :
  ∃ d, d ∈ first_trading_day_each_month
             [mkDate 2020 1 2; mkDate 2020 1 3; mkDate 2020 2 3] ∧
       month_key d = month_key (mkDate 2020 1 3) ∧
       date_le d (mkDate 2020 1 3).
Proof.
  apply rebalance_day_is_earliest_of_month.
  - apply (bool_decide_unpack _). vm_compute. exact I.
  - apply (bool_decide_unpack _). vm_compute. exact I.
Defined.

(** ** Trades happen on rebalance days only *)



(** ** The ledger accounts for every change of the portfolio *)

Section Rows.
Variable costs : Costs.
Variable dt : date.
Variables prices dv : gmap string Qc.


End Rows.

Lemma replay_app p l1 l2 : replay p (l1 ++ l2) = replay (replay p l1) l2.
Proof. apply foldl_app. Qed.







(** ** Signs of the amounts *)


Lemma Qc_mul_nonneg (a b : Qc) : 0 ≤ a → 0 ≤ b → 0 ≤ a * b.
Proof.
  intros Ha Hb. rewrite <- (Qcmult_0_l b). by apply Qcmult_le_compat_r.
Qed.


Section Amounts.
Variable costs : Costs.
Variable dt : date.
Variables prices dv : gmap string Qc.


End Amounts.



(** ** The initial portfolio *)

Lemma fsum_zero l : Forall (λ x, x = 0) l → fsum l = 0.
Proof.
  induction 1 as [|x l -> _ IH]; [done|]. rewrite fsum_cons, IH. ring.
Qed.

Lemma initial_portfolio_lookup assets c a :
  qty (initial_portfolio assets c) !!! a = 0.
Proof.
  simpl. destruct (decide (a ∈ assets)).
  - by rewrite dict_of_lookup.
  - by rewrite dict_of_lookup_miss.
Qed.

Lemma initial_portfolio_value assets prices c :
  portfolio_value assets prices (initial_portfolio assets c) = c.
Proof.
  unfold portfolio_value. rewrite fsum_zero.
  - simpl. ring.
  - apply Forall_fmap, list.Forall_forall. intros a _. simpl.
    fold (qty (initial_portfolio assets c)).
    change (dict_of (λ _, 0) assets) with (qty (initial_portfolio assets c)).
    rewrite initial_portfolio_lookup. ring.
Qed.

(** ** Runs in which nothing can be traded *)



Lemma simulate_day_idle costs assets rdays row p :
  (∃ os, rebalance costs assets row.1 row.2 p = Ok (p, os) ∧
         appended os = []) →
  simulate_day costs assets rdays row p
  = Ok (p, ([], snapshot assets row.1 row.2 p)).
Proof.
  intros (os & Hreb & Hos). unfold simulate_day. case_decide.
  - rewrite Hreb. run_bind. by rewrite Hos.
  - by run_bind.
Qed.

(** A run whose rebalances all leave the portfolio alone. *)
Lemma run_idle costs assets rdays rws p :
  Forall (λ row : date * gmap string Qc,
            ∃ os, rebalance costs assets row.1 row.2 p = Ok (p, os) ∧
                  appended os = []) rws →
  ∃ out, run_steps (simulate_day costs assets rdays) rws p = Ok (p, out) ∧
         concat out.*1 = [] ∧
         out.*2 = (λ row, snapshot assets row.1 row.2 p) <$> rws.
Proof.
  induction 1 as [|row rws Hidle _ (out & Hrun & Hled & Heq)];
    [by exists []|].
  exists (([], snapshot assets row.1 row.2 p) :: out).
  rewrite (run_steps_cons_Ok _ _ _ _ _ _
             (simulate_day_idle costs assets rdays row p Hidle)).
  rewrite Hrun. split; [done|]. rewrite !fmap_cons.
  split; [exact Hled | by rewrite Heq].
Qed.



(** X11.  On a panel without asset columns the periodic simulator
    returns: nothing is traded and every row of the equity curve, one
    per row of the panel, shows the initial cash as equity and as cash.
    The buy-and-hold simulator fails on such a panel with a division by
    zero, and on a panel with assets but no rows with an index error. *)
Theorem runs_on_empty_panels (rws : list (date * gmap string Qc))
    (a : string) (cols : list string) (initial_cash : Qc) (costs : Costs) :
  (∃ equity,
     simulate_equal_weight_monthly_rebalance (mkFrame [] rws) initial_cash costs
       = Ok (equity, []) ∧
     length equity = length rws ∧
     Forall (λ e, e_equity e = initial_cash ∧ e_cash e = initial_cash) equity) ∧
  simulate_buyhold_equal_weight (mkFrame [] rws) initial_cash costs
    = Err ZeroDivisionError ∧
  simulate_buyhold_equal_weight (mkFrame (a :: cols) []) initial_cash costs
    = Err IndexError.
Proof.
  split; [|split].
  - unfold simulate_equal_weight_monthly_rebalance. simpl columns. simpl rows.
    destruct (run_idle costs [] (first_trading_day_each_month
                                   (index (mkFrame [] rws))) rws
                (initial_portfolio [] initial_cash))
      as (out & Hrun & Hled & Heq).
    + apply list.Forall_forall. intros row _. by exists [].
    + rewrite Hrun. run_bind. rewrite Hled, Heq. eexists. split; [done|].
      split; [by rewrite length_fmap|].
      apply Forall_fmap, list.Forall_forall. intros row _. simpl.
      split; [|done]. unfold portfolio_value. simpl. unfold fsum. simpl. ring.
  - unfold simulate_buyhold_equal_weight. simpl columns.
    unfold fdiv. rewrite decide_True; [done|].
    apply Qc_is_canon. vm_compute. reflexivity.
  - unfold simulate_buyhold_equal_weight. simpl columns.
    rewrite fdiv_Ok by by apply qz_of_nat_neq0. by run_bind.
Qed.

(** ** The buy-and-hold run *)

Lemma run_steps_replay_with {A} (f : A → portfolio → result (portfolio * option trade))
    l p p' os :
  (∀ a p0 p1 o, f a p0 = Ok (p1, o) → p1 = replay p0 (appended [o])) →
  run_steps f l p = Ok (p', os) →
  p' = replay p (appended os).
Proof.
  intros Hf. revert p p' os. induction l as [|a l IH]; intros p p' os.
  - by intros [= <- <-].
  - rewrite run_steps_cons.
    destruct (f a p) as [[p1 o]|] eqn:Hstep; [|done].
    destruct (run_steps f l p1) as [[p2 os2]|] eqn:Hrest; [|done].
    intros [= <- <-].
    change (o :: os2) with ([o] ++ os2).
    rewrite appended_app, replay_app, <- (Hf _ _ _ _ Hstep). by eapply IH.
Qed.

Lemma buy_branch_replay costs dt a notional price p p' o :
  buy_branch costs dt a notional price p = Ok (p', o) →
  p' = replay p (appended [o]).
Proof.
  intros [_ Hb]%buy_branch_inv.
  by destruct Hb as [(_ & -> & ->) | (_ & _ & -> & ->)].
Qed.

Lemma buyhold_inv close initial_cash costs equity trades :
  simulate_buyhold_equal_weight close initial_cash costs
    = Ok (equity, trades) →
  ∃ first_dt first_prices w p os,
    run_steps (buyhold_entry costs first_dt first_prices initial_cash w)
              (columns close) (initial_portfolio (columns close) initial_cash)
      = Ok (p, os) ∧
    trades = appended os ∧
    equity = (λ r, snapshot (columns close) r.1 r.2 p) <$> rows close.
Proof.
  unfold simulate_buyhold_equal_weight.
  destruct (fdiv 1 _) as [w|]; [|done]. run_bind.
  destruct (index close) as [|d idx]; [done|]. run_bind.
  destruct (run_steps _ _ _) as [[p os]|] eqn:Hrun; [|done]. run_bind.
  intros [= <- <-]. by exists d, (loc close d), w, p, os.
Qed.

Lemma buyhold_entry_inv costs first_dt first_prices initial_cash w a p p' o :
  buyhold_entry costs first_dt first_prices initial_cash w a p = Ok (p', o) →
  ∃ prices, first_prices = Ok prices ∧
            buy_branch costs first_dt a (initial_cash * w) (prices !!! a) p
            = Ok (p', o).
Proof.
  unfold buyhold_entry. destruct first_prices as [prices|]; [|done].
  run_bind. eauto.
Qed.

(** X12.  When the buy-and-hold run returns, replaying its ledger on the
    initial portfolio gives the cash and the quantities shown on every
    row of the equity curve (they never change after the entry), and
    the equity curve has one row per date of the panel, in panel
    order. *)
Theorem buyhold_portfolio_is_fixed (close : DataFrame) (initial_cash : Qc)
    (costs : Costs) equity trades :
  simulate_buyhold_equal_weight close initial_cash costs
    = Ok (equity, trades) →
  let final := replay (initial_portfolio (columns close) initial_cash) trades in
  Forall (λ e, e_cash e = cash final ∧
               e_qty e = (λ a, (a, qty final !!! a)) <$> columns close)
         equity ∧
  e_date <$> equity = index close.
Proof.
  intros Hrun.
  destruct (buyhold_inv _ _ _ _ _ Hrun)
    as (d & fp & w & p & os & Hsteps & -> & ->).
  assert (Hp : p = replay (initial_portfolio (columns close) initial_cash)
                          (appended os)).
  { eapply run_steps_replay_with; [|exact Hsteps].
    intros a p0 p1 o (pr & _ & Hb)%buyhold_entry_inv.
    by eapply buy_branch_replay. }
  simpl. rewrite <- Hp. split.
  - apply Forall_fmap, list.Forall_forall. by intros r _.
  - unfold index. rewrite <- list_fmap_compose. by apply list_fmap_ext.
Qed.

Lemma buyhold_portfolio_is_fixed_witness :
  ∃ equity trades,
    simulate_buyhold_equal_weight falling_panel (qz 1000) example_costs
      = Ok (equity, trades) ∧
    Forall (λ e, e_cash e
                 = cash (replay (initial_portfolio ["A"; "B"] (qz 1000)) trades))
           equity ∧
    e_date <$> equity = index falling_panel.
Proof.
  destruct (simulate_buyhold_equal_weight falling_panel (qz 1000) example_costs)
    as [[equity trades]|err] eqn:Hrun; [|vm_compute in Hrun; discriminate].
  exists equity, trades. split; [reflexivity|].
  destruct (buyhold_portfolio_is_fixed falling_panel (qz 1000) example_costs
              equity trades Hrun) as (Hrows & Hdates).
  split; [|exact Hdates].
  eapply list.Forall_impl; [exact Hrows|]. intros e [He _]. exact He.
Defined.

Lemma qz_succ n : qz (Z.of_nat (S n)) = qz (Z.of_nat n) + 1.
Proof.
  apply Qc_is_canon. unfold qz, Qcplus, Q2Qc. simpl this.
  rewrite !Qred_correct, Nat2Z.inj_succ. unfold Z.succ.
  rewrite inject_Z_plus. reflexivity.
Qed.

Lemma qz_of_nat_nonneg n : 0 ≤ qz (Z.of_nat n).
Proof.
  induction n as [|n IH]; [done|]. rewrite qz_succ.
  by apply Qcplus_nonneg_nonneg.
Qed.

(** ** The two policies on a panel of one date *)

Lemma run_steps_ext_in {A S O} (f g : A → S → result (S * O)) l s :
  (∀ a s0, a ∈ l → f a s0 = g a s0) → run_steps f l s = run_steps g l s.
Proof.
  revert s. induction l as [|a l IH]; intros s Hfg; [done|].
  rewrite !run_steps_cons, Hfg by by left.
  destruct (g a s) as [[s1 o]|]; [|done].
  rewrite IH; [done|]. intros a0 s0 Hin. apply Hfg. by right.
Qed.

Section OneDate.
Variable costs : Costs.
Variable cols : list string.
Variable row : date * gmap string Qc.
Variable initial_cash : Qc.

Hypothesis some_asset : cols ≠ [].
Hypothesis cash_nonneg : 0 ≤ initial_cash.
Hypothesis fee_nonneg : 0 ≤ fee_bps costs.

Let w := 1 / qz (Z.of_nat (length cols)).
Let p0 := initial_portfolio cols initial_cash.
Let dv := delta_val cols row.2 p0.

Lemma first_delta a : a ∈ cols → dv !!! a = initial_cash * w.
Proof.
  intros Ha. unfold dv, p0. rewrite delta_val_lookup by done.
  rewrite initial_portfolio_value, initial_portfolio_lookup. unfold w. ring.
Qed.

Lemma target_nonneg : 0 ≤ initial_cash * w.
Proof.
  apply Qc_mul_nonneg; [done|].
  assert (Hn : qz (Z.of_nat (length cols)) ≠ 0).
  { apply qz_of_nat_neq0. by destruct cols. }
  apply Qclt_le_weak, Qc_div_pos; [done|].
  destruct (Qcle_lt_or_eq _ _ (qz_of_nat_nonneg (length cols))); [done|].
  by destruct Hn.
Qed.

Lemma first_sell_pass_idle p :
  ∃ os, run_steps (execute costs row.1 row.2 dv) (pass SELL cols) p
        = Ok (p, os) ∧ appended os = [].
Proof.
  assert (Hall : ∀ l, (∀ a, a ∈ l → a ∈ cols) →
            ∃ os, run_steps (execute costs row.1 row.2 dv) (pass SELL l) p
                  = Ok (p, os) ∧ appended os = []).
  { induction l as [|a l IH]; intros Hl; [by exists []|].
    destruct IH as (os & Hrun & Hos); [intros b Hb; apply Hl; by right|].
    exists (None :: os).
    assert (Hstep : execute costs row.1 row.2 dv (SELL, a) p = Ok (p, None)).
    { simpl. rewrite first_delta by (apply Hl; by left).
      by rewrite decide_False by (apply Qcle_not_lt, target_nonneg). }
    unfold pass in *. rewrite fmap_cons.
    by rewrite (run_steps_cons_Ok _ _ _ _ _ _ Hstep), Hrun. }
  by apply Hall.
Qed.

Lemma first_buy_is_entry a p :
  a ∈ cols →
  execute costs row.1 row.2 dv (BUY, a) p
  = buyhold_entry costs row.1 (Ok row.2) initial_cash w a p.
Proof.
  intros Ha. unfold buyhold_entry. run_bind. simpl.
  rewrite first_delta by done.
  destruct (Qcle_lt_or_eq _ _ target_nonneg) as [Hpos|Hzero].
  - rewrite decide_True by done.
    by rewrite decide_False by by apply Qclt_not_le.
  - rewrite <- Hzero. rewrite decide_False by apply Qc_lt_irrefl.
    symmetry. apply buy_branch_skip.
    + apply Qc_pos_neq0. pose proof (bps_to_rate_nonneg _ fee_nonneg). qc_lra.
    + unfold sized, fmin. case_decide as Hcap; [|apply Qcle_refl].
      by apply Qclt_le_weak.
Qed.

Lemma one_date_agree :
  simulate_equal_weight_monthly_rebalance (mkFrame cols [row]) initial_cash costs
  = simulate_buyhold_equal_weight (mkFrame cols [row]) initial_cash costs.
Proof.
  unfold simulate_equal_weight_monthly_rebalance, simulate_buyhold_equal_weight.
  unfold index. simpl columns. simpl rows.
  assert (Hn : qz (Z.of_nat (length cols)) ≠ 0).
  { apply qz_of_nat_neq0. by destruct cols. }
  rewrite (fdiv_Ok _ _ Hn). run_bind. rewrite fmap_cons. run_bind.
  rewrite (loc_first cols row []) by (repeat constructor).
  fold w p0.
  assert (Hday : simulate_day costs cols
                   (first_trading_day_each_month (row.1 :: []))
                   row p0
                 = match run_steps
                           (buyhold_entry costs row.1 (Ok row.2) initial_cash w)
                           cols p0 with
                   | Ok (p', os) =>
                       Ok (p', (appended os, snapshot cols row.1 row.2 p'))
                   | Err e => Err e
                   end).
  { unfold simulate_day. rewrite decide_True by by left.
    unfold rebalance. fold p0 dv.
    change (worklist cols) with (pass SELL cols ++ pass BUY cols).
    rewrite run_steps_app.
    destruct (first_sell_pass_idle p0) as (os1 & -> & Hos1).
    unfold pass at 1. rewrite run_steps_fmap.
    rewrite (run_steps_ext_in _
               (buyhold_entry costs row.1 (Ok row.2) initial_cash w));
      [|intros a s0 Ha; by apply first_buy_is_entry].
    destruct (run_steps _ cols p0) as [[p' os]|]; [|done].
    run_bind. by rewrite appended_app, Hos1. }
  rewrite fmap_nil. rewrite run_steps_cons, Hday.
  destruct (run_steps _ cols p0) as [[p' os]|]; [|done].
  simpl. by rewrite app_nil_r.
Qed.
End OneDate.

(** X14.  On a panel of a single date with at least one asset and
    positive prices, with non-negative initial cash, fee and slippage,
    the periodic simulator and the buy-and-hold simulator both return,
    and they return the same equity row and the same ledger. *)
Theorem policies_agree_on_one_date (cols : list string)
    (row : date * gmap string Qc) (initial_cash : Qc) (costs : Costs) :
  cols ≠ [] → Forall (λ a, 0 < row.2 !!! a) cols →
  0 ≤ initial_cash → 0 ≤ fee_bps costs → 0 ≤ slippage_bps costs →
  ∃ equity trades,
    simulate_equal_weight_monthly_rebalance (mkFrame cols [row])
      initial_cash costs = Ok (equity, trades) ∧
    simulate_buyhold_equal_weight (mkFrame cols [row])
      initial_cash costs = Ok (equity, trades).
Proof.
  intros Hcols Hprices Hcash Hfee Hslip.
  rewrite (one_date_agree costs cols row initial_cash Hcols Hcash Hfee).
  assert (Hn : qz (Z.of_nat (length cols)) ≠ 0).
  { apply qz_of_nat_neq0. by destruct cols. }
  unfold simulate_buyhold_equal_weight, index. simpl columns. simpl rows.
  rewrite (fdiv_Ok _ _ Hn). run_bind. rewrite fmap_cons. run_bind.
  rewrite (loc_first cols row []) by (repeat constructor).
  destruct (run_steps_total
              (buyhold_entry costs row.1 (Ok row.2) initial_cash
                 (1 / qz (Z.of_nat (length cols))))
              (λ _, True) cols (initial_portfolio cols initial_cash))
    as (p' & os & -> & _); [|done|by eauto].
  intros a p0 Ha _.
  destruct (buyhold_entry_total costs row.1 row.2 initial_cash
              (1 / qz (Z.of_nat (length cols))) a p0)
    as (p1 & o & ->); [| |by eauto].
  - apply Qc_pos_neq0. pose proof (bps_to_rate_nonneg _ Hfee). qc_lra.
  - apply Qc_pos_neq0, Qc_mul_pos.
    + rewrite list.Forall_forall in Hprices. by apply Hprices.
    + pose proof (bps_to_rate_nonneg _ Hslip). qc_lra.
Qed.

Lemma policies_agree_on_one_date_witness :
  ∃ equity trades,
    simulate_equal_weight_monthly_rebalance
      (mkFrame ["A"; "B"] [two_assets 2020 1 2 1 1]) (qz 1000) example_costs
    = Ok (equity, trades) ∧
    simulate_buyhold_equal_weight
      (mkFrame ["A"; "B"] [two_assets 2020 1 2 1 1]) (qz 1000) example_costs
    = Ok (equity, trades).
Proof.
  apply policies_agree_on_one_date.
  - discriminate.
  - apply (bool_decide_unpack _). vm_compute. exact I.
  - vm_compute. discriminate.
  - vm_compute. discriminate.
  - vm_compute. discriminate.
Defined.

(** * The panel loader, cell by cell *)

(** A row that passes the coercion loop holds, under every column label,
    the number of its cell. *)
Lemma coerce_row_lookup cols (r : gmap string cell) m :
  coerce_row cols r = Some m →
  Forall (λ c, r !! c = Some (Num (m !!! c))) cols.
Proof.
  unfold coerce_row.
  destruct (mapM _ cols) as [cs|] eqn:Hcs; [|done]. intros [= <-].
  apply mapM_Some_1 in Hcs.
  induction Hcs as [|c cq cols cs Hc _ IH]; [constructor|].
  destruct (r !! c) as [cl|] eqn:Hcell; [|done].
  destruct cl as [q| |]; try discriminate Hc. injection Hc as <-.
  change (list_to_map ((c, q) :: cs) : gmap string Qc)
    with (<[c := q]> (list_to_map cs : gmap string Qc)).
  constructor.
  - rewrite lookup_total_insert. by rewrite decide_True.
  - rewrite list.Forall_forall in IH. apply list.Forall_forall.
    intros c' Hc'. rewrite lookup_total_insert.
    case_decide as Heq; [by subst c'|]. by apply IH.
Qed.

Lemma coerce_row_None cols (r : gmap string cell) :
  coerce_row cols r = None →
  ∃ c, c ∈ cols ∧ ∀ q, r !! c ≠ Some (Num q).
Proof.
  unfold coerce_row.
  destruct (mapM _ cols) as [cs|] eqn:Hcs; [done|]. intros _.
  apply mapM_None_1, list.Exists_exists in Hcs as (c & Hin & Hc).
  exists c. split; [done|]. intros q Hq. by rewrite Hq in Hc.
Qed.

(** The same with partial lookups: the cells are present, and there are
    no others. *)
Lemma coerce_row_cells cols (r : gmap string cell) m :
  coerce_row cols r = Some m →
  Forall (λ c, ∃ q, m !! c = Some q ∧ r !! c = Some (Num q)) cols.
Proof.
  unfold coerce_row.
  destruct (mapM _ cols) as [cs|] eqn:Hcs; [|done]. intros [= <-].
  apply mapM_Some_1 in Hcs.
  induction Hcs as [|c cq cols cs Hc _ IH]; [constructor|].
  destruct (r !! c) as [cl|] eqn:Hcell; [|done].
  destruct cl as [q| |]; try discriminate Hc. injection Hc as <-.
  change (list_to_map ((c, q) :: cs) : gmap string Qc)
    with (<[c := q]> (list_to_map cs : gmap string Qc)).
  constructor.
  - exists q. rewrite lookup_insert. by rewrite decide_True.
  - rewrite list.Forall_forall in IH. apply list.Forall_forall.
    intros c' Hc'. rewrite lookup_insert.
    case_decide as Heq; [subst c'; by exists q|]. by apply IH.
Qed.

Lemma coerce_row_domain cols (r : gmap string cell) m c :
  coerce_row cols r = Some m → c ∉ cols → m !! c = None.
Proof.
  unfold coerce_row.
  destruct (mapM _ cols) as [cs|] eqn:Hcs; [|done].
  assert (Hkeys : cs.*1 = cols).
  { apply mapM_Some_1 in Hcs.
    induction Hcs as [|c0 cq cols0 cs0 Hc0 _ IH]; [done|].
    rewrite fmap_cons. f_equal; [|exact IH].
    destruct (r !! c0 ≫= to_numeric) as [q|]; [|done]. by injection Hc0 as <-. }
  intros [= <-] Hc. apply not_elem_of_list_to_map_1. by rewrite Hkeys.
Qed.

Lemma load_panel_close_rows f close :
  load_panel_close f = Ok close →
  Forall2 (λ (r : date * gmap string cell) (row : date * gmap string Qc),
             row.1 = r.1 ∧ coerce_row (csv_columns f) r.2 = Some row.2)
          (sort_values (csv_rows f)) (rows close).
Proof.
  unfold load_panel_close.
  destruct (mapM _ _) as [rs|] eqn:Hm; [|done]. intros [= <-]. simpl.
  apply mapM_Some_1 in Hm.
  eapply Forall2_impl; [exact Hm|]. intros r row Hr. simpl in Hr.
  destruct (coerce_row _ _) as [m|]; [|done]. by injection Hr as <-.
Qed.

(** X15.  The loader returns a panel exactly when every cell under every
    column label of every line is a number; otherwise it raises
    [ValueError], and then some line has a cell that is not a number.
    No other error is raised, whatever the order or the dates of the
    lines. *)
Theorem loader_accepts_exactly_numeric_files (f : csv) :
  match load_panel_close f with
  | Ok close =>
      columns close = csv_columns f ∧
      Forall (λ r : date * gmap string cell,
                Forall (λ c, ∃ q, r.2 !! c = Some (Num q)) (csv_columns f))
             (csv_rows f)
  | Err e =>
      e = ValueError ∧
      ∃ r c, r ∈ csv_rows f ∧ c ∈ csv_columns f ∧
             ∀ q, r.2 !! c ≠ Some (Num q)
  end.
Proof.
  destruct (load_panel_close f) as [close|e] eqn:Hload.
  - split; [by apply load_panel_close_inv in Hload as [? _]|].
    apply load_panel_close_rows in Hload.
    apply list.Forall_forall. intros r Hr.
    rewrite <- sort_values_perm in Hr.
    destruct (proj1 (list_elem_of_lookup _ _) Hr) as [i Hi].
    destruct (Forall2_lookup_l _ _ _ _ _ Hload Hi) as (row & _ & _ & Hrow).
    eapply list.Forall_impl; [exact (coerce_row_lookup _ _ _ Hrow)|].
    intros c Hc. eexists. exact Hc.
  - unfold load_panel_close in Hload.
    destruct (mapM _ _) as [rs|] eqn:Hm; [done|]. injection Hload as <-.
    split; [done|].
    apply mapM_None_1, list.Exists_exists in Hm as (r & Hr & Hnone).
    rewrite sort_values_perm in Hr.
    destruct (coerce_row (csv_columns f) r.2) as [m|] eqn:Hrow; [done|].
    destruct (coerce_row_None _ _ Hrow) as (c & Hc & Hbad).
    by exists r, c.
Qed.

(** X16.  The loader changes no value: the panel it returns has the
    columns of the file and as many rows as the file has lines, and
    every row of the panel is a line of the file, with the date of that
    line, under every column label of the file the number of that
    line's cell, and no cell under any other label. *)
Theorem loader_keeps_values (f : csv) (close : DataFrame) :
  load_panel_close f = Ok close →
  columns close = csv_columns f ∧
  length (rows close) = length (csv_rows f) ∧
  Forall (λ row : date * gmap string Qc,
            ∃ r, (row.1, r) ∈ csv_rows f ∧
                 Forall (λ c, ∃ q, row.2 !! c = Some q ∧
                                   r !! c = Some (Num q))
                        (columns close) ∧
                 ∀ c, c ∉ columns close → row.2 !! c = None)
         (rows close).
Proof.
  intros Hload.
  destruct (load_panel_close_inv _ _ Hload) as [Hcols _].
  split; [done|]. split; [by apply load_panel_close_length|].
  rewrite Hcols.
  apply load_panel_close_rows in Hload.
  apply list.Forall_forall. intros row Hrow.
  destruct (proj1 (list_elem_of_lookup _ _) Hrow) as [i Hi].
  destruct (Forall2_lookup_r _ _ _ _ _ Hload Hi) as (r & Hr & Hd & Hc).
  exists r.2. split; [|split].
  - rewrite Hd. rewrite <- surjective_pairing.
    rewrite <- (sort_values_perm (csv_rows f)).
    by eapply list_elem_of_lookup_2.
  - by apply coerce_row_cells.
  - intros c Hc'. by eapply coerce_row_domain.
Qed.

Lemma loader_keeps_values_witness :
  columns falling_panel = csv_columns falling_csv ∧
  length (rows falling_panel) = length (csv_rows falling_csv) ∧
  Forall (λ row : date * gmap string Qc,
            ∃ r, (row.1, r) ∈ csv_rows falling_csv ∧
                 Forall (λ c, ∃ q, row.2 !! c = Some q ∧
                                   r !! c = Some (Num q))
                        (columns falling_panel) ∧
                 ∀ c, c ∉ columns falling_panel → row.2 !! c = None)
         (rows falling_panel).
Proof.
  apply loader_keeps_values. exact falling_csv_loads.
Defined.

(** * The equity table *)





(** * The drawdown statistic *)

Lemma fmax_ge_l a b : a ≤ fmax a b.
Proof.
  unfold fmax. case_decide; [by apply Qclt_le_weak | apply Qcle_refl].
Qed.

Lemma fmax_ge_r a b : b ≤ fmax a b.
Proof.
  unfold fmax. case_decide; [apply Qcle_refl | by apply Qcnot_lt_le].
Qed.

Lemma fmax_cases a b : fmax a b = a ∨ fmax a b = b.
Proof. unfold fmax. case_decide; auto. Qed.

Lemma fmin_cases a b : fmin a b = a ∨ fmin a b = b.
Proof. unfold fmin. case_decide; auto. Qed.

Lemma cummax_from_length m l : length (cummax_from m l) = length l.
Proof.
  revert m. induction l as [|x l IH]; intros m; [done|].
  simpl. by rewrite IH.
Qed.

Lemma cummax_length l : length (cummax l) = length l.
Proof. destruct l as [|x l]; [done|]. simpl. by rewrite cummax_from_length. Qed.

(** The running maximum at a position bounds every earlier element and
    is one of them (or the value the scan started from). *)
Lemma cummax_from_spec l m j c :
  cummax_from m l !! j = Some c →
  m ≤ c ∧
  (∀ i xi, (i ≤ j)%nat → l !! i = Some xi → xi ≤ c) ∧
  (c = m ∨ ∃ i, (i ≤ j)%nat ∧ l !! i = Some c).
Proof.
  revert m j. induction l as [|x l IH]; intros m j; [done|].
  destruct j as [|j]; simpl.
  - intros [= <-]. split; [apply fmax_ge_l|]. split.
    + intros i xi Hi. assert (i = 0%nat) as -> by lia.
      intros [= <-]. apply fmax_ge_r.
    + destruct (fmax_cases m x) as [->| ->]; [by left|].
      right. exists 0%nat. by split.
  - intros (Hm & Hle & Hin)%IH. split; [|split].
    + eapply Qcle_trans; [apply fmax_ge_l | exact Hm].
    + intros [|i] xi Hi; simpl.
      * intros [= <-]. eapply Qcle_trans; [apply fmax_ge_r | exact Hm].
      * apply Hle. lia.
    + destruct Hin as [->|(i & Hi & Hc)].
      * destruct (fmax_cases m x) as [->| ->]; [by left|].
        right. exists 0%nat. split; [lia|done].
      * right. exists (S i). split; [lia|done].
Qed.

Lemma cummax_spec l j c :
  cummax l !! j = Some c →
  (∀ i xi, (i ≤ j)%nat → l !! i = Some xi → xi ≤ c) ∧
  (∃ i, (i ≤ j)%nat ∧ l !! i = Some c).
Proof.
  destruct l as [|x l]; [done|]. destruct j as [|j]; simpl.
  - intros [= <-]. split.
    + intros i xi Hi. assert (i = 0%nat) as -> by lia.
      intros [= <-]. apply Qcle_refl.
    + exists 0%nat. by split.
  - intros (Hm & Hle & Hin)%cummax_from_spec. split.
    + intros [|i] xi Hi; simpl; [by intros [= <-]|]. apply Hle. lia.
    + destruct Hin as [->|(i & Hi & Hc)].
      * exists 0%nat. split; [lia|done].
      * exists (S i). split; [lia|done].
Qed.

(** [.min()] returns an element of the series that is below all. *)
Lemma foldl_fmin_spec l x :
  (foldl fmin x l = x ∨ foldl fmin x l ∈ l) ∧
  foldl fmin x l ≤ x ∧ Forall (λ y, foldl fmin x l ≤ y) l.
Proof.
  revert x. induction l as [|y l IH]; intros x; simpl.
  - split; [by left|]. split; [apply Qcle_refl | constructor].
  - destruct (IH (fmin x y)) as (Hin & Hle & Hall). split; [|split].
    + destruct Hin as [Heq|Hin]; [|right; by right].
      rewrite Heq. destruct (fmin_cases x y) as [->| ->];
        [by left | right; by left].
    + eapply Qcle_trans; [exact Hle | apply fmin_le_l].
    + constructor; [|done].
      eapply Qcle_trans; [exact Hle | apply fmin_le_r].
Qed.

Lemma series_min_spec l d :
  series_min l = Some d → d ∈ l ∧ Forall (λ y, d ≤ y) l.
Proof.
  destruct l as [|x l]; [done|]. simpl. intros [= <-].
  destruct (foldl_fmin_spec l x) as (Hin & Hle & Hall). split.
  - destruct Hin as [->|Hin]; [by left | by right].
  - by constructor.
Qed.

Lemma Qc_div_anti x a b : 0 < x → 0 < a → a ≤ b → x / b ≤ x / a.
Proof.
  intros Hx Ha Hab.
  assert (Hb : 0 < b) by (eapply Qclt_le_trans; [exact Ha | exact Hab]).
  apply (Qcmult_lt_0_le_reg_r _ _ (a * b)); [by apply Qc_mul_pos|].
  replace (x / b * (a * b)) with (x / b * b * a) by ring.
  replace (x / a * (a * b)) with (x / a * a * b) by ring.
  rewrite !Qc_div_mul by by apply Qc_pos_neq0.
  rewrite (Qcmult_comm x a), (Qcmult_comm x b).
  apply Qcmult_le_compat_r; [done | by apply Qclt_le_weak].
Qed.

Lemma Qc_div_ge_1 x a : 0 < a → (0 ≤ x / a - 1 ↔ a ≤ x).
Proof.
  intros Ha. split.
  - intros Hle. assert (H1 : 1 ≤ x / a) by qc_lra.
    apply Qc_le_div_mul in H1; [|done]. by rewrite Qcmult_1_l in H1.
  - intros Hle. assert (H1 : 1 ≤ x / a).
    { apply (Qcmult_lt_0_le_reg_r _ _ a); [done|].
      rewrite Qc_div_mul by by apply Qc_pos_neq0.
      by rewrite Qcmult_1_l. }
    qc_lra.
Qed.

Lemma Qc_div_self x : 0 < x → x / x - 1 = 0.
Proof.
  intros Hx. unfold Qcdiv. rewrite Qcmult_inv_r by by apply Qc_pos_neq0.
  ring.
Qed.

Section Drawdown.
Variable eq : list Qc.
Hypothesis positive : Forall (λ x, 0 < x) eq.

Lemma cummax_positive : Forall (λ c, 0 < c) (cummax eq).
Proof.
  apply list.Forall_forall. intros c Hc.
  destruct (proj1 (list_elem_of_lookup _ _) Hc) as [j Hj].
  destruct (cummax_spec _ _ _ Hj) as (_ & i & _ & Hi).
  rewrite list.Forall_forall in positive.
  by eapply positive, list_elem_of_lookup_2.
Qed.

Lemma drawdowns_defined :
  mapM (λ xm : Qc * Qc, drawdown xm.1 xm.2) (zip eq (cummax eq))
  = Some ((λ xm : Qc * Qc, xm.1 / xm.2 - 1) <$> zip eq (cummax eq)).
Proof.
  apply mapM_Some. apply Forall2_fmap_r, Forall_Forall2_diag.
  apply list.Forall_forall. intros [x c] Hin. simpl.
  unfold drawdown. rewrite decide_False; [done|].
  apply Qc_pos_neq0.
  pose proof cummax_positive as Hpos. rewrite list.Forall_forall in Hpos.
  apply Hpos. by eapply elem_of_zip_r.
Qed.

Lemma drawdowns_lookup j d :
  ((λ xm : Qc * Qc, xm.1 / xm.2 - 1) <$> zip eq (cummax eq)) !! j = Some d ↔
  ∃ x c, eq !! j = Some x ∧ cummax eq !! j = Some c ∧ d = x / c - 1.
Proof.
  rewrite list_lookup_fmap, fmap_Some. split.
  - intros ([x c] & Hz & ->). apply lookup_zip_with_Some in Hz
      as (x' & c' & [= <- <-] & Hx & Hc). by exists x, c.
  - intros (x & c & Hx & Hc & ->). exists (x, c). split; [|done].
    apply lookup_zip_with_Some. by exists x, c.
Qed.

(** The statistic is the deepest relative decline from an earlier
    value of the series to a later one. *)
Lemma max_drawdown_spec :
  eq ≠ [] →
  ∃ dd, max_drawdown eq = Some dd ∧
    (∀ i j xi xj, (i ≤ j)%nat → eq !! i = Some xi → eq !! j = Some xj →
                  dd ≤ xj / xi - 1) ∧
    (∃ i j xi xj, (i ≤ j)%nat ∧ eq !! i = Some xi ∧ eq !! j = Some xj ∧
                  dd = xj / xi - 1).
Proof.
  intros Hne. unfold max_drawdown. rewrite drawdowns_defined. simpl.
  set (dds := (λ xm : Qc * Qc, xm.1 / xm.2 - 1) <$> zip eq (cummax eq)).
  assert (Hlen : length dds = length eq).
  { unfold dds. rewrite length_fmap, length_zip_with, cummax_length. lia. }
  destruct (series_min dds) as [dd|] eqn:Hmin.
  2: { destruct dds; [|done]. destruct eq; [done|]. simpl in Hlen. lia. }
  exists dd. split; [done|].
  apply series_min_spec in Hmin as [Hin Hall].
  pose proof positive as Hpos. rewrite list.Forall_forall in Hpos.
  split.
  - intros i j xi xj Hij Hi Hj.
    destruct (lookup_lt_is_Some_2 (cummax eq) j) as [c Hc].
    { rewrite cummax_length. by eapply lookup_lt_Some. }
    destruct (cummax_spec _ _ _ Hc) as [Hle _].
    assert (Hd : dds !! j = Some (xj / c - 1)).
    { apply drawdowns_lookup. by exists xj, c. }
    rewrite list.Forall_forall in Hall.
    eapply Qcle_trans; [apply Hall; by eapply list_elem_of_lookup_2|].
    assert (Hdiv : xj / c ≤ xj / xi).
    { apply Qc_div_anti; [| |by eapply Hle].
      - by eapply Hpos, list_elem_of_lookup_2.
      - by eapply Hpos, list_elem_of_lookup_2. }
    qc_lra.
  - destruct (proj1 (list_elem_of_lookup _ _) Hin) as [j Hj].
    apply drawdowns_lookup in Hj as (xj & c & Hxj & Hc & ->).
    destruct (cummax_spec _ _ _ Hc) as (_ & i & Hij & Hi).
    by exists i, j, c, xj.
Qed.
End Drawdown.

Lemma sorted_by_index (l : list Qc) :
  StronglySorted Qcle l ↔
  ∀ i j xi xj, (i ≤ j)%nat → l !! i = Some xi → l !! j = Some xj → xi ≤ xj.
Proof.
  split.
  - induction 1 as [|x l Hl IH Hx]; [done|].
    intros [|i] [|j] xi xj Hij; simpl.
    + intros [= <-] [= <-]. apply Qcle_refl.
    + intros [= <-] Hj. rewrite list.Forall_forall in Hx.
      by eapply Hx, list_elem_of_lookup_2.
    + lia.
    + apply IH. lia.
  - induction l as [|x l IH]; intros Hidx; [constructor|].
    constructor.
    + apply IH. intros i j xi xj Hij Hi Hj.
      apply (Hidx (S i) (S j)); [lia|done..].
    + apply list.Forall_forall. intros y Hy.
      destruct (proj1 (list_elem_of_lookup _ _) Hy) as [j Hj].
      apply (Hidx 0%nat (S j)); [lia|done..].
Qed.



(** X19.  On a non-empty series of positive equity values the drawdown
    statistic is zero exactly when the series never falls (each value
    is at least every earlier one); otherwise it is negative. *)
Theorem max_drawdown_zero_iff_never_falls (eq : list Qc) :
  Forall (λ x, 0 < x) eq → eq ≠ [] →
  (max_drawdown eq = Some 0 ↔ StronglySorted Qcle eq).
Proof.
  intros Hpos Hne.
  destruct (max_drawdown_spec eq Hpos Hne) as (dd & Hdd & Hlow & Hatt).
  rewrite list.Forall_forall in Hpos.
  rewrite Hdd, sorted_by_index. split.
  - intros [= ->] i j xi xj Hij Hi Hj.
    apply Qc_div_ge_1; [by eapply Hpos, list_elem_of_lookup_2|].
    by eapply Hlow.
  - intros Hsorted. f_equal. apply Qcle_antisym.
    + destruct eq as [|x l]; [done|].
      eapply Qcle_trans; [by apply (Hlow 0%nat 0%nat x x)|].
      rewrite Qc_div_self by (apply Hpos; by left). apply Qcle_refl.
    + destruct Hatt as (i & j & xi & xj & Hij & Hi & Hj & ->).
      apply Qc_div_ge_1; [by eapply Hpos, list_elem_of_lookup_2|].
      by eapply Hsorted.
Qed.

Lemma max_drawdown_zero_iff_never_falls_witness :
  max_drawdown [qz 100; qz 100; qz 120] = Some 0.
Proof.
  apply max_drawdown_zero_iff_never_falls.
  - apply (bool_decide_unpack _). vm_compute. exact I.
  - discriminate.
  - apply (bool_decide_unpack _). vm_compute. exact I.
Defined.

(** * What rounding decides: the code in binary64 *)

Section Rounding.
Import Binary64.
Local Open Scope float_scope.

(** ** The affordability cap *)

(** C5, the defect.  At the defaults of the program (fee 5 bps, slippage
    2 bps, no fixed charge, 1000 of initial cash) and one asset, both
    simulators size their single BUY as the claim says, to
    [min(1000, max(0, (1000 - 0) / (1 + fee_rate)))], execute it, and
    debit [notional_exec + (notional_exec * fee_rate + fixed)]: the
    rounded debit is 1000.0000000000001 and the cash that every row of
    the equity curve shows is [-2^-43], about -1.1e-13, below zero. *)
Theorem buy_cap_overdraws_cash :
  let fee_rate := bps_to_rate (fee_bps default_costs) in
  let fixed := fixed_per_trade default_costs in
  let periodic :=
    simulate_equal_weight_monthly_rebalance single_panel 1000 default_costs in
  let buyhold :=
    simulate_buyhold_equal_weight single_panel 1000 default_costs in
  periodic = buyhold ∧
  ∃ e t,
    equity_curve periodic = e :: nil ∧ ledger periodic = t :: nil ∧
    t_side t = BUY ∧
    t_notional t = fmin 1000 (fmax 0 ((1000 - fixed) / (1 + fee_rate))) ∧
    e_cash e = 1000 - (t_notional t + (t_notional t * fee_rate + fixed)) ∧
    e_cash e = -0x1p-43 ∧
    (e_cash e <? 0) = true.
Proof.
  cbv zeta. split; [vm_compute; reflexivity|].
  destruct (simulate_equal_weight_monthly_rebalance
              single_panel 1000 default_costs)
    as [[equity trades]|err] eqn:Hrun; vm_compute in Hrun; [|discriminate].
  injection Hrun as <- <-.
  eexists _, _. split; [reflexivity|]. split; [reflexivity|].
  repeat split; vm_compute; reflexivity.
Qed.

(** ** The notional of a trade and the delta it serves *)



End Rounding.

(** ** The order of the assets within the SELL pass *)

Section SellPass.
Import Binary64.
Local Open Scope float_scope.

Variable costs : Costs.
Variable dt : date.
Variables prices dv : gmap string float.

Let alone := sell_alone costs dt prices dv.

Lemma execute_sell a p :
  execute costs dt prices dv (SELL, a) p = Ok (alone p a).
Proof.
  unfold alone, sell_alone. simpl. by destruct (dv !!! a <? 0).
Qed.

(** A SELL reads the portfolio only at its own asset. *)
Lemma sell_alone_row a p q :
  qty p !! a = qty q !! a → (alone p a).2 = (alone q a).2.
Proof.
  intros Heq. unfold alone, sell_alone, sell_branch.
  destruct (dv !!! a <? 0); [|done].
  destruct (abs _ <=? 0); [done|]. simpl.
  by rewrite !(lookup_total_alt (qty _)), Heq.
Qed.

Lemma sell_alone_own a p q :
  qty p !! a = qty q !! a → qty (alone p a).1 !! a = qty (alone q a).1 !! a.
Proof.
  intros Heq. unfold alone, sell_alone, sell_branch.
  destruct (dv !!! a <? 0); [|done].
  destruct (abs _ <=? 0); [done|]. simpl.
  rewrite !lookup_insert, !decide_True by done.
  by rewrite !(lookup_total_alt (qty _)), Heq.
Qed.

Lemma sell_alone_other a b p :
  a ≠ b → qty (alone p a).1 !! b = qty p !! b.
Proof.
  intros Hne. unfold alone, sell_alone, sell_branch.
  destruct (dv !!! a <? 0); [|done].
  destruct (abs _ <=? 0); [done|]. simpl.
  by rewrite lookup_insert_ne.
Qed.

(** The SELL pass over distinct assets: every asset of the pass ends
    with the holding, and appends the row, of its own SELL taken from
    the portfolio the pass started from. *)
Lemma sell_pass_spec order p :
  NoDup order →
  ∃ p',
    sell_pass costs dt prices dv order p
    = Ok (p', (λ a, (alone p a).2) <$> order) ∧
    ∀ b, qty p' !! b
         = if decide (b ∈ order) then qty (alone p b).1 !! b else qty p !! b.
Proof.
  unfold sell_pass. intros Hnd. revert p.
  induction Hnd as [|a order Ha Hnd IH]; intros p.
  - exists p. split; [done|]. intros b.
    by rewrite decide_False by apply not_elem_of_nil.
  - destruct (IH (alone p a).1) as (p' & Hrun & Hqty).
    exists p'. split.
    + unfold pass in *. rewrite fmap_cons.
      assert (Hstep : execute costs dt prices dv (SELL, a) p
                      = Ok ((alone p a).1, (alone p a).2)).
      { rewrite execute_sell. by destruct (alone p a). }
      rewrite (run_steps_cons_Ok _ _ _ _ _ _ Hstep), Hrun.
      rewrite fmap_cons. do 3 f_equal.
      apply list_fmap_ext. intros i b Hb.
      apply sell_alone_row, sell_alone_other.
      intros ->. apply Ha. by eapply list_elem_of_lookup_2.
    + intros b. rewrite Hqty.
      destruct (decide (b = a)) as [->|Hne].
      * rewrite decide_False by done. by rewrite decide_True by by left.
      * case_decide as Hin.
        -- rewrite decide_True by by right.
           apply sell_alone_own, sell_alone_other. by intros ->.
        -- rewrite decide_False; [by apply sell_alone_other|].
           by intros [?|?]%elem_of_cons.
Qed.
End SellPass.

(** C2, as the code has it.  For the table of deltas of a rebalance and
    distinct assets, the order in which the SELL pass visits the assets
    changes neither the holdings the pass leaves nor the rows it
    appends, which are the same up to their order.  The theorem
    promises nothing about the cash after the pass, which adds the same
    proceeds in another order, nor about the BUY pass. *)
Theorem sell_pass_holdings_any_order (costs : Binary64.Costs) (dt : date)
    (prices dv : gmap string float) (order1 order2 : list string)
    (p : Binary64.portfolio) :
  NoDup order1 → order1 ≡ₚ order2 →
  ∃ p1 os1 p2 os2,
    Binary64.sell_pass costs dt prices dv order1 p = Ok (p1, os1) ∧
    Binary64.sell_pass costs dt prices dv order2 p = Ok (p2, os2) ∧
    Binary64.qty p1 = Binary64.qty p2 ∧
    Binary64.appended os1 ≡ₚ Binary64.appended os2.
Proof.
  intros Hnd1 Hperm.
  assert (Hnd2 : NoDup order2) by by rewrite <- Hperm.
  destruct (sell_pass_spec costs dt prices dv order1 p Hnd1)
    as (p1 & Hrun1 & Hqty1).
  destruct (sell_pass_spec costs dt prices dv order2 p Hnd2)
    as (p2 & Hrun2 & Hqty2).
  eexists p1, _, p2, _. split; [exact Hrun1|]. split; [exact Hrun2|].
  split.
  - apply map_eq. intros b. rewrite Hqty1, Hqty2.
    destruct (decide (b ∈ order1)) as [Hin|Hin].
    + rewrite decide_True; [done|]. by rewrite <- Hperm.
    + rewrite decide_False; [done|]. by rewrite <- Hperm.
  - unfold Binary64.appended. by rewrite Hperm.
Qed.

Lemma sell_pass_holdings_any_order_witness :
  ∃ p1 os1 p2 os2,
    Binary64.sell_pass Binary64.default_costs (mkDate 2020 2 3)
      Binary64.second_prices Binary64.second_deltas
      ["A"; "B"; "C"; "D"] Binary64.after_first_day = Ok (p1, os1) ∧
    Binary64.sell_pass Binary64.default_costs (mkDate 2020 2 3)
      Binary64.second_prices Binary64.second_deltas
      ["C"; "B"; "A"; "D"] Binary64.after_first_day = Ok (p2, os2) ∧
    Binary64.qty p1 = Binary64.qty p2 ∧
    Binary64.appended os1 ≡ₚ Binary64.appended os2.
Proof.
  apply sell_pass_holdings_any_order.
  - apply (bool_decide_unpack _). vm_compute. exact I.
  - apply (bool_decide_unpack _). vm_compute. exact I.
Defined.

(** The cash after the SELL pass is outside that theorem for a reason:
    on the second date of a default run on [four_panel] the pass sells
    A, B and C, and leaves 78.91961618920585 of cash when it visits
    them in this order and 78.91961618920587 when it visits C first. *)
Lemma sell_pass_cash_depends_on_order :
  ∃ p1 os1 p2 os2,
    Binary64.sell_pass Binary64.default_costs (mkDate 2020 2 3)
      Binary64.second_prices Binary64.second_deltas
      ["A"; "B"; "C"; "D"] Binary64.after_first_day = Ok (p1, os1) ∧
    Binary64.sell_pass Binary64.default_costs (mkDate 2020 2 3)
      Binary64.second_prices Binary64.second_deltas
      ["C"; "B"; "A"; "D"] Binary64.after_first_day = Ok (p2, os2) ∧
    length (Binary64.appended os1) = 3%nat ∧
    Binary64.cash p1 = 0x1.3badafddc60b9p+6%float ∧
    Binary64.cash p2 = 0x1.3badafddc60bap+6%float.
Proof.
  destruct (Binary64.sell_pass Binary64.default_costs (mkDate 2020 2 3)
              Binary64.second_prices Binary64.second_deltas
              ["A"; "B"; "C"; "D"] Binary64.after_first_day)
    as [[p1 os1]|err1] eqn:H1; vm_compute in H1; [|discriminate].
  destruct (Binary64.sell_pass Binary64.default_costs (mkDate 2020 2 3)
              Binary64.second_prices Binary64.second_deltas
              ["C"; "B"; "A"; "D"] Binary64.after_first_day)
    as [[p2 os2]|err2] eqn:H2; vm_compute in H2; [|discriminate].
  injection H1 as <- <-. injection H2 as <- <-.
  eexists _, _, _, _. split; [reflexivity|]. split; [reflexivity|].
  repeat split; vm_compute; reflexivity.
Qed.

(** ** [main] checks no parameter *)

Section Completion.
Import Binary64.
Local Open Scope float_scope.

Variable costs : Costs.
Hypothesis fee_divisor : (1 + bps_to_rate (fee_bps costs) =? 0) = false.



End Completion.





